(** * Coordonates_cadastral_number.py: the cadastral lookup pipeline

    A shallow embedding of the processing core of the Streamlit application
    (fetch_json, convert_coordinates, the deduplicating loop of main, the
    record list of the session, create_output_dataframe, display_map and the
    look-up of the identifiers in the reference table), followed by the
    properties of the design document that hold of it and the inputs on which
    the others fail.

    Conventions.
    - Python exceptions are values of [exn]; a computation that may raise
      returns a [result].
    - A parsed JSON document (what [response.json()] returns) is a [json]
      value; [JNull] is Python's [None].
    - Floating point numbers are an abstract type [num] with the operations
      the program uses ([PyFloat]); every theorem holds for any such
      arithmetic, IEEE doubles included. Equality on [num] stands for
      Python's [==] on the floats that occur.
    - The projection of pyproj, the HTTP server and pandas' text conversion
      are parameters ([Projection], [Network], [astype_str]); what pandas
      does in [explode] and in the construction of a frame from a list of
      cells is written out where create_output_dataframe uses it.
    - [Sample] is an instance on integers with a canned service, on which
      the statements are run. *)

From stdpp Require Import base option strings list gmap sets pretty.
From Stdlib Require Import ZArith.

Local Open Scope Z_scope.
Local Open Scope string_scope.
Local Open Scope list_scope.
Set Warnings "-register-all".

(** ** Exceptions and results *)

Inductive exn : Type :=
  | KeyError
  | IndexError
  | TypeError
  | ValueError
  | ZeroDivisionError
  | JSONDecodeError
  | ConnectionError.

Inductive result (A : Type) : Type :=
  | Ok (a : A)
  | Raise (e : exn).
Arguments Ok {A} a.
Arguments Raise {A} e.

#[global] Instance exn_eq_dec : EqDecision exn.
Proof. solve_decision. Defined.

#[global] Instance result_ret : MRet result := @Ok.
#[global] Instance result_bind : MBind result := λ A B f m,
  match m with
  | Ok a => f a
  | Raise e => Raise e
  end.
#[global] Instance result_fmap : FMap result := λ A B f m,
  match m with
  | Ok a => Ok (f a)
  | Raise e => Raise e
  end.

Definition is_Ok {A} (m : result A) : Prop := ∃ a, m = Ok a.

(** ** Parsed JSON values *)

Inductive json (num : Type) : Type :=
  | JNull
  | JBool (b : bool)
  | JNum (x : num)
  | JStr (s : string)
  | JArr (l : list (json num))
  | JObj (kv : list (string * json num)).
Arguments JNull {num}.
Arguments JBool {num} b.
Arguments JNum {num} x.
Arguments JStr {num} s.
Arguments JArr {num} l.
Arguments JObj {num} kv.

(** The arithmetic of Python floats that the program uses. *)
Class PyFloat (num : Type) := {
  num_zero : num;                    (* 0, the one falsy number *)
  num_sum : list num → num;          (* the builtin sum() on a non-empty column *)
  num_div : num → num → num;         (* / with a nonzero divisor *)
  num_of_nat : nat → num;            (* len(...) as a number *)
  astype_str : option num → string;  (* Series.astype(str) on a cell; None is a missing value *)
}.

(** [Transformer.from_crs("EPSG:3844", "EPSG:4326", always_xy=True).transform]:
    with always_xy the result is (longitude, latitude). *)
Class Projection (num : Type) := {
  transform : num → num → num * num;
  (* The same call on arguments that are not two JSON numbers: pyproj
     converts what float() accepts (booleans and numeric text among them) and
     raises on the rest. *)
  transform_other : json num → json num → result (num * num);
}.

(** What [requests.get] answers: the status code and what [.json()] gives. *)
Record response (num : Type) := Response {
  status_code : Z;
  response_json : result (json num);
}.
Arguments Response {num} status_code response_json.
Arguments status_code {num} r.
Arguments response_json {num} r.

Class Network (num : Type) := {
  requests_get : string → result (response num);
}.

Section python.
Context {num : Type} `{Countable num} `{!PyFloat num}.

(** Truth value of a Python object, as tested by [if json_data:]. *)
Definition truthy (v : json num) : bool :=
  match v with
  | JNull => false
  | JBool b => b
  | JNum x => bool_decide (x ≠ num_zero)
  | JStr s => bool_decide (s ≠ "")
  | JArr l => bool_decide (l ≠ [])
  | JObj kv => bool_decide (kv ≠ [])
  end.

(** A dict keeps one value per key; the association list is read from the left. *)
Fixpoint dict_get (k : string) (kv : list (string * json num)) : option (json num) :=
  match kv with
  | [] => None
  | (k', v) :: kv' => if decide (k = k') then Some v else dict_get k kv'
  end.

(** [v[k]] with a string key. *)
Definition getitem_key (v : json num) (k : string) : result (json num) :=
  match v with
  | JObj kv =>
      match dict_get k kv with
      | Some x => Ok x
      | None => Raise KeyError
      end
  | _ => Raise TypeError
  end.

(** [v[i]] with a non-negative integer index. *)
Definition getitem_index (v : json num) (i : nat) : result (json num) :=
  match v with
  | JArr l =>
      match l !! i with
      | Some x => Ok x
      | None => Raise IndexError
      end
  | JStr s =>
      match String.get i s with
      | Some c => Ok (JStr (String c ""))
      | None => Raise IndexError
      end
  | JObj _ => Raise KeyError
  | _ => Raise TypeError
  end.

Fixpoint chars (s : string) : list (json num) :=
  match s with
  | EmptyString => []
  | String c s' => JStr (String c "") :: chars s'
  end.

(** The items a [for] loop sees. *)
Definition py_iter (v : json num) : result (list (json num)) :=
  match v with
  | JArr l => Ok l
  | JStr s => Ok (chars s)
  | JObj kv => Ok (JStr <$> kv.*1)
  | _ => Raise TypeError
  end.

(** [x, y = v]. *)
Definition unpack2 (v : json num) : result (json num * json num) :=
  l ← py_iter v;
  match l with
  | [x; y] => Ok (x, y)
  | _ => Raise ValueError
  end.

(** [sum(...)]. How the builtin adds floats up (left to right, or with a
    compensated algorithm from Python 3.12 on) is the arithmetic's. *)
Definition py_sum (l : list num) : num := num_sum l.

(** [s / n] where [n] is a [len(...)]. *)
Definition py_div_len (s : num) (n : nat) : result num :=
  if decide (n = 0%nat) then Raise ZeroDivisionError
  else Ok (num_div s (num_of_nat n)).

(** [mapM] for [result], stopping at the first exception. *)
Fixpoint for_each {A B} (f : A → result B) (l : list A) : result (list B) :=
  match l with
  | [] => Ok []
  | x :: l' => y ← f x; ys ← for_each f l'; Ok (y :: ys)
  end.
End python.

(** ** convert_coordinates *)

Section convert.
Context {num : Type} `{Countable num} `{!PyFloat num} `{!Projection num}.

(** A projected vertex, as the tuple [transform] returns. *)
Local Abbreviation coord := (num * num)%type.

(** [transformer.transform(x, y)]: the projection on two JSON numbers;
    pyproj decides what happens on anything else. *)
Definition transformer_transform (x y : json num) : result coord :=
  match x, y with
  | JNum a, JNum b => Ok (transform a b)
  | _, _ => transform_other x y
  end.

(** [[transformer.transform(x, y) for x, y in ring]] *)
Definition convert_ring (ring : json num) : result (list coord) :=
  points ← py_iter ring;
  for_each (λ p, '(x, y) ← unpack2 p; transformer_transform x y) points.

Definition convert_coordinates (json_data : json num)
  : result (option (list coord) * option num * option num) :=
  if truthy json_data then
    features ← getitem_key json_data "features";
    feature ← getitem_index features 0;
    geometry ← getitem_key feature "geometry";
    rings ← getitem_key geometry "rings";
    ring_list ← py_iter rings;
    converted_rings ← for_each convert_ring ring_list;
    let converted_coordinates := concat converted_rings in
    central_lat ← py_div_len (py_sum (converted_coordinates.*1))
                             (length converted_coordinates);
    central_lon ← py_div_len (py_sum (converted_coordinates.*2))
                             (length converted_coordinates);
    Ok (Some converted_coordinates, Some central_lat, Some central_lon)
  else Ok (None, None, None).
End convert.

(** ** extract_url_from_html and fetch_json *)

(** The double quote character. *)
Definition dquote : Ascii.ascii := Ascii.ascii_of_nat 34.

Fixpoint strip_prefix (p s : string) : option string :=
  match p, s with
  | EmptyString, _ => Some s
  | String a p', String b s' => if decide (a = b) then strip_prefix p' s' else None
  | String _ _, EmptyString => None
  end.

(** The longest run of characters other than the quote, and what follows it. *)
Fixpoint span_unquoted (s : string) : string * string :=
  match s with
  | EmptyString => ("", "")
  | String c s' =>
      if decide (c = dquote) then ("", s)
      else let '(u, r) := span_unquoted s' in (String c u, r)
  end.

(** A match of the pattern [href=Q([^Q]+)Q] (Q the quote) at the start of
    [s]: the greedy group is the whole run, which must be non-empty and
    closed by a quote. *)
Definition match_href (s : string) : option string :=
  rest ← strip_prefix ("href=" +:+ String dquote "") s;
  let '(u, r) := span_unquoted rest in
  match u, r with
  | String _ _, String _ _ => Some u
  | _, _ => None
  end.

(** [re.search]: the leftmost position with a match. *)
Fixpoint re_search_href (s : string) : option string :=
  match match_href s with
  | Some u => Some u
  | None =>
      match s with
      | EmptyString => None
      | String _ s' => re_search_href s'
      end
  end.

Definition extract_url_from_html (html : string) : option string :=
  re_search_href html.

(** No quote occurs in [s]. *)
Fixpoint unquoted (s : string) : Prop :=
  match s with
  | EmptyString => True
  | String c s' => c ≠ dquote ∧ unquoted s'
  end.

Section fetch.
Context {num : Type} `{!Network num}.

(** The error message shown by [st.error] is not part of the result. *)
Definition fetch_json (url : string) : result (json num) :=
  response ← requests_get url;
  if decide (status_code response = 200) then response_json response
  else Ok JNull.
End fetch.

(** ** The session's list of records *)

Record lookup : Type := Lookup {
  Judet : string;
  Judet_ID : Z;
  Comuna : string;
  Comuna_ID : Z;
  Numar_Carte_Funciara : Z;
  Link : string;
}.

#[global] Instance lookup_eq_dec : EqDecision lookup.
Proof. solve_decision. Defined.

Definition query_prefix : string :=
  "https://geoportal.ancpi.ro/maps/rest/services/eterra3_publish/MapServer/1/query?f=json&outFields=NATIONAL_CADASTRAL_REFERENCE&spatialRel=esriSpatialRelIntersects&where=INSPIRE_ID%20%3D%20%27RO.".

(** The f-string of [link]. *)
Definition build_link (judet_id comuna_id nr_carte_funciara : Z) : string :=
  query_prefix +:+ pretty judet_id +:+ "." +:+ pretty comuna_id +:+ "."
    +:+ pretty nr_carte_funciara +:+ "%27".

(** [if record not in recorduri: recorduri.append(record)] *)
Definition append_if_new (recorduri : list lookup) (record : lookup) : list lookup :=
  if decide (record ∈ recorduri) then recorduri else recorduri ++ [record].

(** [st.session_state.recorduri]; [None] while the key is not in the session. *)
Definition session : Type := option (list lookup).

(** The body of [if st.button("Add")]. *)
Definition on_add (selected_judet selected_comuna : string)
    (judet_id comuna_id nr_carte_funciara : Z) (s : session) : session :=
  if bool_decide (selected_judet ≠ "") && bool_decide (selected_comuna ≠ "")
     && bool_decide (nr_carte_funciara ≠ 0)
  then
    let record := {|
      Judet := selected_judet; Judet_ID := judet_id;
      Comuna := selected_comuna; Comuna_ID := comuna_id;
      Numar_Carte_Funciara := nr_carte_funciara;
      Link := build_link judet_id comuna_id nr_carte_funciara |} in
    Some (append_if_new (default [] s) record)
  else s.

Definition dummy_records : list lookup := [
  {| Judet := "Arges"; Judet_ID := 36; Comuna := "Ungheni"; Comuna_ID := 19560;
     Numar_Carte_Funciara := 12476;
     Link := query_prefix +:+ "38.19560.12476%27" |};
  {| Judet := "Gorj"; Judet_ID := 181; Comuna := "Pades"; Comuna_ID := 81095;
     Numar_Carte_Funciara := 39107;
     Link := query_prefix +:+ "181.81095.39107%27" |} ].

(** The body of [if st.button("Add Dummy Data")]. *)
Definition on_add_dummy (s : session) : session :=
  Some (foldl append_if_new (default [] s) dummy_records).

(** [st.session_state.recorduri.pop(index)] *)
Definition delete_record (index : nat) (recorduri : list lookup) : result (list lookup) :=
  if decide (index < length recorduri)%nat then Ok (delete index recorduri)
  else Raise IndexError.

(** The Delete buttons exist only while the list is present and non-empty;
    a [pop] that raises leaves the list as it was. *)
Definition on_delete (index : nat) (s : session) : session :=
  match s with
  | Some (r :: l) =>
      match delete_record index (r :: l) with
      | Ok l' => Some l'
      | Raise _ => s
      end
  | _ => s
  end.

Inductive click : Type :=
  | ClickAdd (selected_judet selected_comuna : string)
             (judet_id comuna_id nr_carte_funciara : Z)
  | ClickAddDummy
  | ClickDelete (index : nat).

Definition session_step (s : session) (c : click) : session :=
  match c with
  | ClickAdd j c jid cid nr => on_add j c jid cid nr s
  | ClickAddDummy => on_add_dummy s
  | ClickDelete i => on_delete i s
  end.

Definition session_run (clicks : list click) : session :=
  foldl session_step None clicks.

(** The records of the session; none while the key is absent. *)
Definition records (s : session) : list lookup := default [] s.

(** [df['Link'].apply(lambda x: f'<a href=Qx Q target=Q_blankQ>request_link</a>')] *)
Definition anchor (x : string) : string :=
  "<a href=" +:+ String dquote x +:+ String dquote " target="
    +:+ String dquote "_blank" +:+ String dquote ">request_link</a>".

Definition df_of_recorduri (recorduri : list lookup) : list lookup :=
  (λ r, {| Judet := Judet r; Judet_ID := Judet_ID r; Comuna := Comuna r;
           Comuna_ID := Comuna_ID r;
           Numar_Carte_Funciara := Numar_Carte_Funciara r;
           Link := anchor (Link r) |}) <$> recorduri.

(** ** The processing loop of main *)

Section batch.
Context {num : Type} `{Countable num} `{!PyFloat num} `{!Projection num}
  `{!Network num}.

Local Abbreviation coord := (num * num)%type.

(** One entry of the six parallel lists the loop fills; the lists become
    the columns of the frame handed to create_output_dataframe. *)
Record out_record : Type := OutRecord {
  County : option string;
  Local_UAT : option string;
  Cadastral_number : option Z;
  Converted_Coordinates : option (list coord);
  Central_Lat : option num;
  Central_Lon : option num;
}.

(** The six [append(None)] of the two else branches. *)
Definition no_data : out_record :=
  {| County := None; Local_UAT := None; Cadastral_number := None;
     Converted_Coordinates := None; Central_Lat := None; Central_Lon := None |}.

(** Lines 335 and 344: the list comprehension over the candidate vertices,
    then [unique_coordinates.update] with what was kept. *)
Definition collect (converted_coordinates : list coord)
    (unique_coordinates : gset coord) : list coord * gset coord :=
  let unique_converted_coordinates :=
    filter (λ c, c ∉ unique_coordinates) converted_coordinates in
  (unique_converted_coordinates,
   unique_coordinates ∪ list_to_set unique_converted_coordinates).

(** The body of [for index, row in df.iterrows()], on the set of vertices
    seen so far. The two-second pause has no effect on the values. *)
Definition process_row (row : lookup) (unique_coordinates : gset coord)
    : result (out_record * gset coord) :=
  match extract_url_from_html (Link row) with
  | Some url =>
      json_data ← fetch_json url;
      if truthy json_data then
        '(converted_coordinates, central_lat, central_lon) ←
          convert_coordinates json_data;
        match converted_coordinates with
        | Some converted_coordinates =>
            let '(kept, unique_coordinates') :=
              collect converted_coordinates unique_coordinates in
            Ok ({| County := Some (Judet row);
                   Local_UAT := Some (Comuna row);
                   Cadastral_number := Some (Numar_Carte_Funciara row);
                   Converted_Coordinates := Some kept;
                   Central_Lat := central_lat;
                   Central_Lon := central_lon |},
                unique_coordinates')
        | None => Raise TypeError
        end
      else Ok (no_data, unique_coordinates)
  | None => Ok (no_data, unique_coordinates)
  end.

Fixpoint process_rows (rows : list lookup) (unique_coordinates : gset coord)
    : result (list out_record * gset coord) :=
  match rows with
  | [] => Ok ([], unique_coordinates)
  | row :: rows' =>
      '(o, unique_coordinates') ← process_row row unique_coordinates;
      '(os, unique_coordinates'') ← process_rows rows' unique_coordinates';
      Ok (o :: os, unique_coordinates'')
  end.

(** ** create_output_dataframe *)

Record vertex_row : Type := VertexRow {
  row_County : option string;
  row_Local_UAT : option string;
  row_Cadastral_number : option Z;
  row_Central_Lat : option num;
  row_Central_Lon : option num;
  Lat : option num;
  Long : option num;
  Google_Maps_Link : string;
  Google_Maps_Link_Central_Point : string;
}.

(** [Series.explode] on one cell: a non-empty list gives one row per item,
    an empty list one row holding NaN, a scalar (None) is kept as it is. *)
Definition explode_cell (cell : option (list coord)) : list (option coord) :=
  match cell with
  | Some (p :: l) => Some <$> (p :: l)
  | Some [] => [None]
  | None => [None]
  end.

(** [df_output.explode("Converted_Coordinates")]: the other columns are
    repeated beside each exploded cell. *)
Definition explode (df : list out_record) : list (out_record * option coord) :=
  r ← df; (λ c, (r, c)) <$> explode_cell (Converted_Coordinates r).

(** [pd.DataFrame(cells, index=...)] on the exploded column. pandas decides
    by the first cell alone whether the data is nested: a tuple there makes
    it read every cell as a row of fields, a missing cell (None or NaN) giving
    missing fields; any other first cell makes the cells one column of
    objects; no cells, no columns. *)
Inductive cells_frame : Type :=
  | NoColumns
  | OneColumn (c : list (option coord))
  | TwoColumns (c0 c1 : list (option num)).

Definition DataFrame_of_cells (cells : list (option coord)) : cells_frame :=
  match cells with
  | [] => NoColumns
  | None :: _ => OneColumn cells
  | Some _ :: _ => TwoColumns ((λ c : option coord, fst <$> c) <$> cells)
                             ((λ c : option coord, snd <$> c) <$> cells)
  end.

(** [df_output[['Lat', 'Long']] = frame]: the frame must bring two columns. *)
Definition setitem_Lat_Long (frame : cells_frame)
    : result (list (option num) * list (option num)) :=
  match frame with
  | TwoColumns c0 c1 => Ok (c0, c1)
  | _ => Raise ValueError
  end.

Definition maps_prefix : string := "https://maps.google.com/?q=".

Definition make_row (r : out_record) (lat long : option num) : vertex_row :=
  {| row_County := County r;
     row_Local_UAT := Local_UAT r;
     row_Cadastral_number := Cadastral_number r;
     row_Central_Lat := Central_Lat r;
     row_Central_Lon := Central_Lon r;
     Lat := lat;
     Long := long;
     Google_Maps_Link :=
       maps_prefix +:+ astype_str lat +:+ "," +:+ astype_str long;
     Google_Maps_Link_Central_Point :=
       maps_prefix +:+ astype_str (Central_Lon r) +:+ ","
         +:+ astype_str (Central_Lat r) |}.

Definition create_output_dataframe (df : list out_record)
    : result (list vertex_row) :=
  let df_output := explode df in
  '(lat, long) ← setitem_Lat_Long (DataFrame_of_cells (df_output.*2));
  Ok (zip_with (λ r ll, make_row r ll.1 ll.2) (df_output.*1) (zip lat long)).

(** The body of [if st.button("Processing Data")]: a fresh set of seen
    vertices, the loop, the projection to one row per vertex. *)
Definition processing_data (recorduri : list lookup) : result (list vertex_row) :=
  '(records, _) ← process_rows (df_of_recorduri recorduri) ∅;
  create_output_dataframe records.

(** ** Views of the loop used in the statements below *)

(** The transform of a row taken on its own: its URL fetched and, when the
    answer is truthy, converted; the all-None triple otherwise. No set of
    seen vertices takes part. *)
Definition row_transform (row : lookup)
    : result (option (list coord) * option num * option num) :=
  match extract_url_from_html (Link row) with
  | Some url =>
      json_data ← fetch_json url;
      if truthy json_data then convert_coordinates json_data
      else Ok (None, None, None)
  | None => Ok (None, None, None)
  end.

Definition row_centroid (row : lookup) : result (option num * option num) :=
  t ← row_transform row; Ok (t.1.2, t.2).

Definition centroid_of (o : out_record) : option num * option num :=
  (Central_Lat o, Central_Lon o).

(** The two centroid columns of the frame out of the loop. *)
Definition centroids (res : list out_record * gset coord)
    : list (option num * option num) :=
  centroid_of <$> res.1.

(** The rows one record contributes to the output table. *)
Definition record_rows (r : out_record) : list vertex_row :=
  (λ c : option coord, make_row r (fst <$> c) (snd <$> c))
    <$> explode_cell (Converted_Coordinates r).
End batch.

(** ** display_map *)

(** [Series.unique()]: the distinct values in the order of their first
    appearance; the missing values count as one value. *)
Fixpoint py_unique {A} `{EqDecision A} (l : list A) : list A :=
  match l with
  | [] => []
  | x :: l' => x :: filter (λ y, y ≠ x) (py_unique l')
  end.

Section display.
Context {num : Type}.

(** What display_map shows below the link: the map, with the location of
    the map and of the marker and the locations of the polygon as folium
    accepted them, or the message of the else branch. *)
Inductive map_display : Type :=
  | MapShown (location : num * num) (polygon : list (num * num))
  | NoDataMessage.

(** The options of the radio button. *)
Definition radio_options (df_output : list (vertex_row (num:=num))) : list (option Z) :=
  py_unique (row_Cadastral_number <$> df_output).

(** [df_output[df_output['Cadastral number'] == option]]: a missing value
    equals nothing, not even a missing value. *)
Definition filter_cadastral_number (cadastral_number_option : option Z)
    (df_output : list (vertex_row (num:=num))) : list vertex_row :=
  filter (λ row, is_Some cadastral_number_option
                 ∧ row_Cadastral_number row = cadastral_number_option) df_output.

(** folium validates every location it is given ([folium.Map],
    [folium.Marker], [folium.Polygon]): a missing value (NaN or None) in it
    raises ValueError. *)
Definition folium_location (location : option num * option num)
    : result (num * num) :=
  match location with
  | (Some a, Some b) => Ok (a, b)
  | _ => Raise ValueError
  end.

(** The first component is the link that [st.write] puts on the page on
    line 100, before folium is called: it stays there when folium raises. *)
Definition display_map (df_output : list (vertex_row (num:=num)))
    (cadastral_number_option : option Z) : option string * result map_display :=
  let df_filtered := filter_cadastral_number cadastral_number_option df_output in
  match df_filtered with
  | row0 :: _ =>
      let center_lat := row_Central_Lon row0 in
      let center_lon := row_Central_Lat row0 in
      let google_maps_link := Google_Maps_Link_Central_Point row0 in
      (Some google_maps_link,
       location ← folium_location (center_lat, center_lon);
       _ ← folium_location (center_lat, center_lon);
       let coords := (λ row, (Long row, Lat row)) <$> df_filtered in
       polygon ← for_each folium_location coords;
       Ok (MapShown location polygon))
  | [] => (None, Ok NoDataMessage)
  end.

(** The locations a record brings to the polygon, as (Long, Lat) of its
    rows: latitude first. *)
Definition polygon_of (o : out_record (num:=num))
    : list (option num * option num) :=
  (λ c : option (num * num), (snd <$> c, fst <$> c))
    <$> explode_cell (Converted_Coordinates o).

(** The vertices a record keeps; none for the all-None record. *)
Definition kept_of (o : out_record (num:=num)) : list (num * num) :=
  default [] (Converted_Coordinates o).

(** The record of a row: the all-None record, or the three fields of the
    row with a vertex list and a centroid. *)
Definition record_of_row (row : lookup) (o : out_record (num:=num)) : Prop :=
  o = no_data
  ∨ (County o = Some (Judet row) ∧ Local_UAT o = Some (Comuna row)
     ∧ Cadastral_number o = Some (Numar_Carte_Funciara row)
     ∧ is_Some (Converted_Coordinates o)
     ∧ is_Some (Central_Lat o) ∧ is_Some (Central_Lon o)).
End display.

(** ** The reference data and the link of a request *)

(** A row of localitati_IDs.xlsx. *)
Record locality : Type := Locality {
  loc_Comuna : string;
  loc_Judet : string;
  loc_Comuna_ID : Z;
  loc_Judet_ID : Z;
}.

(** [data['Judet'].unique()], the options of the first select box. *)
Definition judete (data : list locality) : list string :=
  py_unique (loc_Judet <$> data).

Definition get_comune_by_judet (comune : list locality) (judet : string)
    : list locality :=
  filter (λ l, loc_Judet l = judet) comune.

(** [column.values[0]] *)
Definition values_0 {A} (column : list A) : result A :=
  match column with
  | x :: _ => Ok x
  | [] => Raise IndexError
  end.

(** Lines 202 to 214: the two identifiers of the selection and the link built
    from them. *)
Definition request_link (data : list locality)
    (selected_judet selected_comuna : string) (nr_carte_funciara : Z)
    : result (Z * Z * string) :=
  let filtered_comune := get_comune_by_judet data selected_judet in
  judet_id ← values_0 (loc_Judet_ID <$> filter (λ l, loc_Judet l = selected_judet) data);
  comuna_id ← values_0
    (loc_Comuna_ID <$> filter (λ l, loc_Comuna l = selected_comuna) filtered_comune);
  Ok (judet_id, comuna_id, build_link judet_id comuna_id nr_carte_funciara).

(** The character [c] does not occur in [s]. *)
Fixpoint avoids (c : Ascii.ascii) (s : string) : Prop :=
  match s with
  | EmptyString => True
  | String c' s' => c' ≠ c ∧ avoids c s'
  end.

(** The decimal digits and the minus sign. *)
Definition decimal_chars : string := "-0123456789".

(** A link the loop can read back: not empty, no quote in it. *)
Definition link_ok (r : lookup) : Prop := Link r ≠ "" ∧ unquoted (Link r).

(** Three rows of a reference table. *)
Definition sample_data : list locality := [
  {| loc_Comuna := "Pitesti"; loc_Judet := "Arges"; loc_Comuna_ID := 13169;
     loc_Judet_ID := 38 |};
  {| loc_Comuna := "Ungheni"; loc_Judet := "Arges"; loc_Comuna_ID := 19560;
     loc_Judet_ID := 38 |};
  {| loc_Comuna := "Pades"; loc_Judet := "Gorj"; loc_Comuna_ID := 81095;
     loc_Judet_ID := 181 |} ].

(** A service that answers every request with status 200 and an empty
    object. *)
Definition empty_answers : Network Z :=
  {| requests_get := λ url, Ok (Response 200 (Ok (JObj []))) |}.

(** ** The shape of the service's answer *)

Section geometry.
Context {num : Type} `{Countable num} `{!PyFloat num}.

(** A polygon: rings of (x, y) pairs in EPSG:3844. *)
Local Abbreviation rings_t := (list (list (num * num))).

Definition point_json (p : num * num) : json num := JArr [JNum p.1; JNum p.2].
Definition ring_json (ring : list (num * num)) : json num :=
  JArr (point_json <$> ring).

(** The smallest answer holding the polygon [rings]. *)
Definition geometry_json (rings : rings_t) : json num :=
  JObj [("features",
         JArr [JObj [("geometry", JObj [("rings", JArr (ring_json <$> rings))])]])].

(** [json_data["features"][0]["geometry"]["rings"]] is the polygon [rings]:
    the document may hold other keys and further features. *)
Definition has_rings (json_data : json num) (rings : rings_t) : Prop :=
  ∃ features feature geometry,
    getitem_key json_data "features" = Ok features ∧
    getitem_index features 0 = Ok feature ∧
    getitem_key feature "geometry" = Ok geometry ∧
    getitem_key geometry "rings" = Ok (JArr (ring_json <$> rings)).

(** The mean of a non-empty column of numbers, in the program's arithmetic. *)
Definition arithmetic_mean (l : list num) : num :=
  num_div (py_sum l) (num_of_nat (length l)).

(** How often [p] occurs in [l]. *)
Definition occurrences (p : num * num) (l : list (num * num)) : nat :=
  length (filter (λ c, c = p) l).
End geometry.

Section access_path.
Context {num : Type} `{Countable num} `{!PyFloat num}.

(** [json_data["features"][0]["geometry"]["rings"]] evaluates to [v],
    whatever [v] is. *)
Definition rings_at (json_data rings : json num) : Prop :=
  ∃ features feature geometry,
    getitem_key json_data "features" = Ok features ∧
    getitem_index features 0 = Ok feature ∧
    getitem_key feature "geometry" = Ok geometry ∧
    getitem_key geometry "rings" = Ok rings.
End access_path.

Section projected.
Context {num : Type} `{!Projection num}.

(** [transformer.transform(x, y)] on a point of a ring. *)
Definition project (p : num * num) : num * num := transform p.1 p.2.
End projected.

(** With always_xy the first component of a projected vertex is the
    longitude and the second the latitude. *)
Definition lon {num : Type} (c : num * num) : num := c.1.
Definition lat {num : Type} (c : num * num) : num := c.2.

(** [outs] with [o] put in at position [n]. *)
Definition insert_at {A} (n : nat) (o : A) (outs : list A) : list A :=
  take n outs ++ o :: drop n outs.

(** ** A small instance: integer coordinates and a canned service *)

Module Sample.

#[export] Instance Z_float : PyFloat Z := {|
  num_zero := 0;
  num_sum := foldl Z.add 0;
  num_div := Z.div;
  num_of_nat := Z.of_nat;
  astype_str := λ o, match o with Some z => pretty z | None => "nan" end;
|}.

(** The integer written by a text of decimal digits. *)
Fixpoint digits_value (acc : Z) (s : string) : option Z :=
  match s with
  | EmptyString => Some acc
  | String c s' =>
      let d := Z.of_nat (Ascii.nat_of_ascii c) - 48 in
      if decide (0 ≤ d ∧ d ≤ 9)%Z then digits_value (10 * acc + d) s' else None
  end.

(** The number that float() makes of a value that is not a number, on this
    instance: a boolean is 0 or 1, a text of digits the integer it writes;
    for the rest pyproj raises. *)
Definition scalar_of (v : json Z) : option Z :=
  match v with
  | JNum a => Some a
  | JBool b => Some (if b then 1 else 0)
  | JStr (String c s) => digits_value 0 (String c s)
  | _ => None
  end.

(** A shift of the origin stands for the projection. *)
#[export] Instance shift : Projection Z := {|
  transform := λ x y, (x - 500000, y - 300000);
  transform_other := λ x y,
    match scalar_of x, scalar_of y with
    | Some a, Some b => Ok (a - 500000, b - 300000)
    | _, _ => Raise TypeError
    end;
|}.

Definition square : list (list (Z * Z)) :=
  [[(500000, 300000); (500010, 300000); (500010, 300010); (500000, 300010)]].

(** A triangle that shares the corner (500010, 300010) with [square]. *)
Definition triangle : list (list (Z * Z)) :=
  [[(500010, 300010); (500020, 300010); (500020, 300020)]].

(** A parcel record whose only point is that corner. *)
Definition corner : list (list (Z * Z)) := [[(500010, 300010)]].

(** A ring that closes on its first vertex. *)
Definition closed_ring : list (list (Z * Z)) :=
  [[(500000, 300000); (500010, 300000); (500010, 300010); (500000, 300000)]].

#[export] Instance canned : Network Z := {|
  requests_get := λ url,
    if decide (url = "http://svc/square") then
      Ok (Response 200 (Ok (geometry_json square)))
    else if decide (url = "http://svc/triangle") then
      Ok (Response 200 (Ok (geometry_json triangle)))
    else if decide (url = "http://svc/corner") then
      Ok (Response 200 (Ok (geometry_json corner)))
    else if decide (url = "http://svc/missing") then
      Ok (Response 404 (Raise JSONDecodeError))
    else if decide (url = "http://svc/garbled") then
      Ok (Response 200 (Raise JSONDecodeError))
    else if decide (url = "http://svc/nofeatures") then
      Ok (Response 200 (Ok (JObj [("features", JArr [])])))
    else if decide (url = "http://svc/norings") then
      Ok (Response 200 (Ok (geometry_json [])))
    else Raise ConnectionError;
|}.

(** A record of the session's list, and its row in the frame of main. *)
Definition record_of (nr : Z) (url : string) : lookup :=
  {| Judet := "Arges"; Judet_ID := 36; Comuna := "Ungheni"; Comuna_ID := 19560;
     Numar_Carte_Funciara := nr; Link := url |}.

Definition row_of (nr : Z) (url : string) : lookup :=
  {| Judet := "Arges"; Judet_ID := 36; Comuna := "Ungheni"; Comuna_ID := 19560;
     Numar_Carte_Funciara := nr; Link := anchor url |}.

Definition row_square : lookup := row_of 1 "http://svc/square".
Definition row_triangle : lookup := row_of 2 "http://svc/triangle".
Definition row_missing : lookup := row_of 3 "http://svc/missing".
Definition row_garbled : lookup := row_of 4 "http://svc/garbled".
Definition row_nofeatures : lookup := row_of 5 "http://svc/nofeatures".
Definition row_norings : lookup := row_of 6 "http://svc/norings".

(** What the loop appends for a parcel with the two vertices (0, 0) and (10, 0). *)
Definition two_vertices : out_record :=
  {| County := Some "Arges"; Local_UAT := Some "Ungheni";
     Cadastral_number := Some 1;
     Converted_Coordinates := Some [(0, 0); (10, 0)];
     Central_Lat := Some 5; Central_Lon := Some 0 |}.

(** A parcel of another commune that bears the same number. *)
Definition same_number : out_record :=
  {| County := Some "Arges"; Local_UAT := Some "Bradu";
     Cadastral_number := Some 1;
     Converted_Coordinates := Some [(20, 30)];
     Central_Lat := Some 20; Central_Lon := Some 30 |}.

(** What the loop appends for a parcel all of whose vertices were seen
    before: the centroid is there, no vertex is kept. *)
Definition all_suppressed : out_record :=
  {| County := Some "Arges"; Local_UAT := Some "Ungheni";
     Cadastral_number := Some 7;
     Converted_Coordinates := Some [];
     Central_Lat := Some 4; Central_Lon := Some 3 |}.

End Sample.


(** * Properties *)

(** ** The result monad and the Python primitives *)

(** Rewrite with the value of a computation and run the bind that used it. *)
Ltac bind_ok H := rewrite H; cbn [mbind result_bind].

(** Case analysis on the computation at the head of a bind in the goal. *)
Ltac ok_bind :=
  match goal with
  | |- context [mbind _ ?m] =>
      lazymatch m with
      | context [mbind _ _] => fail
      | _ => destruct m eqn:?; cbn [mbind result_bind]
      end
  end.

Section python_facts.
Context {num : Type} `{Countable num} `{!PyFloat num}.

Lemma has_rings_truthy (j : json num) rings : has_rings j rings → truthy j = true.
Proof.
  intros (features & _ & _ & Hf & _).
  destruct j as [| | | | |kv]; try discriminate.
  destruct kv; [discriminate|done].
Qed.

Lemma has_rings_geometry_json (rings : list (list (num * num))) :
  has_rings (geometry_json rings) rings.
Proof. unfold has_rings, geometry_json. eauto 10. Qed.

Lemma py_div_len_pos (s : num) (n : nat) :
  n ≠ 0%nat → py_div_len s n = Ok (num_div s (num_of_nat n)).
Proof. intros. unfold py_div_len. by case_decide. Qed.
End python_facts.

(** ** convert_coordinates *)

Section convert_facts.
Context {num : Type} `{Countable num} `{!PyFloat num} `{!Projection num}.

Lemma convert_ring_ring_json (ring : list (num * num)) :
  convert_ring (ring_json ring) = Ok (project <$> ring).
Proof.
  unfold convert_ring, ring_json.
  change (py_iter (JArr (point_json <$> ring))) with (Ok (point_json <$> ring)).
  simpl. induction ring as [|p ring IH]; [done|].
  rewrite fmap_cons. simpl. by rewrite IH.
Qed.

Lemma convert_rings_ring_json (rings : list (list (num * num))) :
  for_each convert_ring (ring_json <$> rings) = Ok (fmap (M:=list) project <$> rings).
Proof.
  induction rings as [|r rings IH]; [done|].
  rewrite !fmap_cons. cbn [for_each].
  rewrite convert_ring_ring_json. cbn [mbind result_bind].
  by rewrite IH.
Qed.

(** On a document that holds a polygon the function gets as far as the two
    divisions, with the projected points of all rings as its vertex list. *)
Lemma convert_coordinates_has_rings (j : json num) rings :
  has_rings j rings →
  convert_coordinates j =
    let vs := concat (fmap (M:=list) project <$> rings) in
    central_lat ← py_div_len (py_sum (vs.*1)) (length vs);
    central_lon ← py_div_len (py_sum (vs.*2)) (length vs);
    Ok (Some vs, Some central_lat, Some central_lon).
Proof.
  intros Hj. unfold convert_coordinates.
  rewrite (has_rings_truthy _ _ Hj).
  destruct Hj as (features & feature & geometry & H1 & H2 & H3 & H4).
  bind_ok H1. bind_ok H2. bind_ok H3. bind_ok H4.
  change (py_iter (JArr (ring_json <$> rings))) with (Ok (ring_json <$> rings)).
  cbn [mbind result_bind]. by bind_ok convert_rings_ring_json.
Qed.

Lemma projected_nil (rings : list (list (num * num))) :
  concat (fmap (M:=list) project <$> rings) = [] ↔ concat rings = [].
Proof.
  induction rings as [|r rings IH]; simpl; [done|].
  destruct r; simpl; [done|]. split; discriminate.
Qed.

(** On a polygon with a point both divisions go through. *)
Lemma convert_coordinates_centroid (j : json num) (rings : list (list (num * num))) :
  has_rings j rings →
  concat rings ≠ [] →
  let vs := concat (fmap (M:=list) project <$> rings) in
  convert_coordinates j =
    Ok (Some vs, Some (arithmetic_mean (vs.*1)), Some (arithmetic_mean (vs.*2))).
Proof.
  intros Hj Hne vs.
  rewrite (convert_coordinates_has_rings _ _ Hj). fold vs. cbv zeta.
  assert (length vs ≠ 0%nat) as Hlen.
  { intros Hl. apply Hne, projected_nil. by apply length_zero_iff_nil. }
  rewrite !py_div_len_pos by done. simpl.
  unfold arithmetic_mean. by rewrite !length_fmap.
Qed.

Lemma length_projected (rings : list (list (num * num))) :
  length (concat (fmap (M:=list) project <$> rings)) = sum_list (length <$> rings).
Proof.
  rewrite length_concat. f_equal.
  rewrite <-list_fmap_compose. apply list_fmap_ext.
  intros _ r _. simpl. by rewrite length_fmap.
Qed.

(** C3: for a document holding a polygon with at least one point, the
    function returns the projected points of the rings, concatenated in the
    order of the rings, as many as the rings have points together, and as
    centroid the mean of their first components and the mean of their second
    components, each computed on its own. *)
Theorem convert_coordinates_polygon (j : json num) (rings : list (list (num * num))) :
  has_rings j rings →
  concat rings ≠ [] →
  let vs := concat (fmap (M:=list) project <$> rings) in
  convert_coordinates j =
    Ok (Some vs, Some (arithmetic_mean (vs.*1)), Some (arithmetic_mean (vs.*2)))
  ∧ length vs = sum_list (length <$> rings).
Proof.
  intros Hj Hne vs. split.
  - by apply convert_coordinates_centroid.
  - apply length_projected.
Qed.

Lemma convert_coordinates_None : convert_coordinates (JNull : json num) = Ok (None, None, None).
Proof. done. Qed.

Lemma convert_coordinates_falsy (j : json num) :
  truthy j = false → convert_coordinates j = Ok (None, None, None).
Proof. intros Hj. unfold convert_coordinates. by rewrite Hj. Qed.

(** C1: on a document that holds a polygon without any point the vertex
    list is empty and the first division, by its length, raises
    ZeroDivisionError: the all-None triple is returned for a falsy input
    only ([convert_coordinates_falsy]). *)
Theorem convert_coordinates_no_points (j : json num) (rings : list (list (num * num))) :
  has_rings j rings →
  concat rings = [] →
  convert_coordinates j = Raise ZeroDivisionError.
Proof.
  intros Hj Hnil. rewrite (convert_coordinates_has_rings _ _ Hj).
  apply projected_nil in Hnil. by rewrite Hnil.
Qed.

(** Whatever a truthy document holds, a result of the function is never the
    all-None triple: it has a vertex list and both centroid fields. *)
Lemma convert_coordinates_truthy (j : json num) cc clat clon :
  truthy j = true →
  convert_coordinates j = Ok (cc, clat, clon) →
  ∃ vs, cc = Some vs ∧ vs ≠ [] ∧
        clat = Some (arithmetic_mean (vs.*1)) ∧
        clon = Some (arithmetic_mean (vs.*2)).
Proof.
  intros Hj. unfold convert_coordinates. rewrite Hj.
  repeat (ok_bind; [|discriminate]).
  intros [= <- <- <-].
  repeat match goal with
         | Hd : py_div_len _ _ = Ok _ |- _ =>
             unfold py_div_len in Hd; case_decide; [discriminate|];
             injection Hd as <-
         end.
  eexists. split; [done|]. split.
  { intros Hnil. by rewrite Hnil in *. }
  unfold arithmetic_mean. by rewrite !length_fmap.
Qed.
End convert_facts.

Section convert_sample.
Import Sample.

Lemma convert_coordinates_polygon_witness :
  convert_coordinates (geometry_json square) =
    Ok (Some [(0, 0); (10, 0); (10, 10); (0, 10)], Some 5, Some 5)
  ∧ length [(0, 0); (10, 0); (10, 10); (0, 10)] = 4%nat.
Proof.
  exact (convert_coordinates_polygon (geometry_json square) square
           (has_rings_geometry_json square) ltac:(discriminate)).
Defined.

Lemma convert_coordinates_no_points_witness :
  convert_coordinates (geometry_json ([] : list (list (Z * Z)))) = Raise ZeroDivisionError.
Proof.
  exact (convert_coordinates_no_points (geometry_json []) []
           (has_rings_geometry_json []) eq_refl).
Defined.

(** A ring without points is no better than no ring. *)
Example convert_coordinates_empty_ring :
  convert_coordinates (geometry_json ([[]] : list (list (Z * Z)))) = Raise ZeroDivisionError.
Proof. reflexivity. Qed.

(** An answer without features: the lookup of the first feature raises. *)
Example convert_coordinates_no_features :
  convert_coordinates (JObj [("features", JArr [])] : json Z) = Raise IndexError.
Proof. reflexivity. Qed.

(** An answer whose feature has no geometry. *)
Example convert_coordinates_no_geometry :
  convert_coordinates (JObj [("features", JArr [JObj [("attributes", JObj [])]])] : json Z)
  = Raise KeyError.
Proof. reflexivity. Qed.

(** Coordinates that come as numeric text are converted, not refused. *)
Example convert_coordinates_text_coordinates :
  convert_coordinates
    (JObj [("features",
            JArr [JObj [("geometry",
              JObj [("rings",
                JArr [JArr [JArr [JStr "500010"; JNum 300020];
                            JArr [JNum 500030; JStr "300040"]]])])]])] : json Z)
  = Ok (Some [(10, 20); (30, 40)], Some 20, Some 30).
Proof. reflexivity. Qed.
End convert_sample.

(** ** extract_url_from_html *)

Lemma span_unquoted_app (u r : string) :
  unquoted u → span_unquoted (u +:+ String dquote r) = (u, String dquote r).
Proof.
  induction u as [|c u IH]; simpl; [done|].
  intros [Hc Hu]. case_decide; [done|]. by rewrite IH.
Qed.

(** The link column of the frame gives back the link of the record. *)
Lemma extract_url_from_html_anchor (url : string) :
  url ≠ "" → unquoted url → extract_url_from_html (anchor url) = Some url.
Proof.
  intros Hne Hu. unfold extract_url_from_html, anchor. simpl.
  unfold match_href. simpl.
  change (span_unquoted _) with
    (span_unquoted (url +:+ String dquote (" target=" +:+ String dquote "_blank"
                      +:+ String dquote ">request_link</a>"))).
  rewrite span_unquoted_app by done.
  by destruct url.
Qed.

(** ** The loop of main *)

Section batch_facts.
Context {num : Type} `{Countable num} `{!PyFloat num} `{!Projection num}
  `{!Network num}.

Lemma fetch_json_status (url : string) (resp : response num) :
  requests_get url = Ok resp →
  fetch_json url =
    if decide (status_code resp = 200) then response_json resp else Ok JNull.
Proof. intros Hr. unfold fetch_json. by bind_ok Hr. Qed.

(** The loop body is the transform of the row followed by the collector;
    the centroid goes through as the transform returned it. *)
Lemma process_row_transform (row : lookup) (seen : gset (num * num)) :
  process_row row seen =
    t ← row_transform row;
    match t with
    | (Some vs, clat, clon) =>
        Ok ({| County := Some (Judet row);
               Local_UAT := Some (Comuna row);
               Cadastral_number := Some (Numar_Carte_Funciara row);
               Converted_Coordinates := Some (collect vs seen).1;
               Central_Lat := clat;
               Central_Lon := clon |},
            (collect vs seen).2)
    | (None, _, _) => Ok (no_data, seen)
    end.
Proof.
  unfold process_row, row_transform.
  destruct (extract_url_from_html (Link row)) as [url|]; [|done].
  destruct (fetch_json url) as [j|e]; [|done]. cbn [mbind result_bind].
  destruct (truthy j) eqn:Hj; [|done].
  destruct (convert_coordinates j) as [[[cc clat] clon]|e] eqn:Hc; [|done].
  destruct (convert_coordinates_truthy _ _ _ _ Hj Hc) as (vs & -> & _).
  done.
Qed.

(** A transform without a vertex list is the all-None triple. *)
Lemma row_transform_None (row : lookup) clat clon :
  row_transform row = Ok (None, clat, clon) → clat = None ∧ clon = None.
Proof.
  unfold row_transform.
  destruct (extract_url_from_html (Link row)) as [url|]; [|by intros [= <- <-]].
  destruct (fetch_json url) as [j|e]; [|done]. cbn [mbind result_bind].
  destruct (truthy j) eqn:Hj; [|by intros [= <- <-]].
  intros Hc. by destruct (convert_coordinates_truthy _ _ _ _ Hj Hc) as (vs & ? & _).
Qed.

Lemma process_row_centroid (row : lookup) (seen : gset (num * num)) :
  (λ res, centroid_of res.1) <$> process_row row seen = row_centroid row.
Proof.
  rewrite process_row_transform. unfold row_centroid.
  destruct (row_transform row) as [[[[vs|] clat] clon]|e] eqn:Ht; [done| |done].
  by destruct (row_transform_None _ _ _ Ht) as [-> ->].
Qed.

Lemma process_rows_app (rows1 rows2 : list lookup) (seen : gset (num * num)) :
  process_rows (rows1 ++ rows2) seen =
    '(o1, s1) ← process_rows rows1 seen;
    '(o2, s2) ← process_rows rows2 s1;
    Ok (o1 ++ o2, s2).
Proof.
  revert seen. induction rows1 as [|row rows1 IH]; intros seen; simpl.
  - by destruct (process_rows rows2 seen) as [[??]|].
  - destruct (process_row row seen) as [[o s]|]; [|done]. simpl.
    rewrite IH. destruct (process_rows rows1 s) as [[o1 s1]|]; [|done]. simpl.
    by destruct (process_rows rows2 s1) as [[??]|].
Qed.

Lemma process_rows_length (rows : list lookup) (seen : gset (num * num)) outs seen' :
  process_rows rows seen = Ok (outs, seen') → length outs = length rows.
Proof.
  revert seen outs seen'.
  induction rows as [|row rows IH]; intros seen outs seen'; simpl.
  - by intros [= <- _].
  - destruct (process_row row seen) as [[o s]|]; [|done]. simpl.
    destruct (process_rows rows s) as [[os s']|] eqn:Hr; [|done]. simpl.
    intros [= <- _]. simpl. f_equal. eauto.
Qed.

Lemma insert_at_app {A} (o : A) (l1 l2 : list A) :
  insert_at (length l1) o (l1 ++ l2) = l1 ++ o :: l2.
Proof.
  unfold insert_at. by rewrite take_app_length, drop_app_length.
Qed.

(** C2, as the loop has it: an answer with a status other than 200 becomes
    None at fetch_json; the loop then appends the all-None record, leaves
    the set of seen vertices as it was and goes on, so that the batch gives
    what it gives without that row, with the all-None record put in at the
    row's place. An answer with status 200 whose body does not decode is not
    caught: the exception of [response.json()] leaves fetch_json and ends the
    loop at that row. *)
Theorem process_rows_fetch_failure (row : lookup) (url : string)
    (resp : response num) (rows1 rows2 : list lookup) (seen : gset (num * num)) :
  extract_url_from_html (Link row) = Some url →
  requests_get url = Ok resp →
  (status_code resp ≠ 200 →
     fetch_json url = Ok JNull ∧
     process_row row seen = Ok (no_data, seen) ∧
     process_rows (rows1 ++ row :: rows2) seen =
       (λ res, (insert_at (length rows1) no_data res.1, res.2))
         <$> process_rows (rows1 ++ rows2) seen)
  ∧ (∀ e, status_code resp = 200 → response_json resp = Raise e →
     fetch_json url = Raise e ∧
     process_rows (rows1 ++ row :: rows2) seen =
       (process_rows rows1 seen ≫= λ _, Raise e)).
Proof.
  intros Hurl Hresp. split.
  - intros Hstatus.
    assert (fetch_json url = Ok JNull) as Hfetch.
    { rewrite (fetch_json_status _ _ Hresp). by case_decide. }
    assert (∀ s, process_row row s = Ok (no_data, s)) as Hrow.
    { intros s. unfold process_row. rewrite Hurl. by bind_ok Hfetch. }
    split; [done|]. split; [done|].
    rewrite !process_rows_app. cbn [process_rows].
    destruct (process_rows rows1 seen) as [[o1 s1]|] eqn:H1; [|done].
    cbn [mbind result_bind fmap result_fmap]. bind_ok Hrow.
    destruct (process_rows rows2 s1) as [[o2 s2]|]; [|done].
    cbn [mbind result_bind fmap result_fmap fst snd].
    rewrite <-(process_rows_length _ _ _ _ H1). by rewrite insert_at_app.
  - intros e Hstatus Hbody.
    assert (fetch_json url = Raise e) as Hfetch.
    { rewrite (fetch_json_status _ _ Hresp). by case_decide. }
    split; [done|].
    rewrite process_rows_app. cbn [process_rows].
    destruct (process_rows rows1 seen) as [[o1 s1]|]; [|done].
    cbn [mbind result_bind]. unfold process_row. rewrite Hurl.
    by bind_ok Hfetch.
Qed.

(** A transform with a vertex list has the two means of that list as
    its centroid. *)
Lemma row_transform_Some (row : lookup) vs clat clon :
  row_transform row = Ok (Some vs, clat, clon) →
  clat = Some (arithmetic_mean (vs.*1)) ∧ clon = Some (arithmetic_mean (vs.*2)).
Proof.
  unfold row_transform.
  destruct (extract_url_from_html (Link row)) as [url|]; [|done].
  destruct (fetch_json url) as [j|e]; [|done]. cbn [mbind result_bind].
  destruct (truthy j) eqn:Hj; [|done].
  intros Hc.
  destruct (convert_coordinates_truthy _ _ _ _ Hj Hc) as (vs' & [= <-] & _ & ? & ?).
  done.
Qed.

(** C6: the centroid columns of a batch are the centroids of its rows, each
    computed from the row's own transform: no set of seen vertices takes
    part. For a row whose transform has the vertex list [vs], whatever the
    set of seen vertices, the record appended holds the vertices of [vs] the
    collector kept, and as centroid the two means over the whole of [vs]. *)
Theorem process_rows_centroids (rows : list lookup) (seen : gset (num * num)) :
  centroids <$> process_rows rows seen = for_each row_centroid rows
  ∧ ∀ row vs clat clon,
      row_transform row = Ok (Some vs, clat, clon) →
      ∃ out seen',
        process_row row seen = Ok (out, seen')
        ∧ Converted_Coordinates out = Some (filter (λ c, c ∉ seen) vs)
        ∧ Central_Lat out = Some (arithmetic_mean (vs.*1))
        ∧ Central_Lon out = Some (arithmetic_mean (vs.*2)).
Proof.
  split.
  - revert seen. induction rows as [|row rows IH]; intros seen; [done|].
    cbn [process_rows for_each].
    rewrite <-(process_row_centroid row seen).
    destruct (process_row row seen) as [[o s]|]; [|done].
    cbn [mbind result_bind fmap result_fmap fst].
    rewrite <-(IH s).
    by destruct (process_rows rows s) as [[os s']|].
  - intros row vs clat clon Ht.
    destruct (row_transform_Some _ _ _ _ Ht) as [-> ->].
    rewrite process_row_transform. bind_ok Ht. eauto 10.
Qed.
End batch_facts.

Section batch_sample.
Import Sample.

Lemma process_rows_fetch_failure_witness :
  process_rows [row_square; row_missing; row_triangle] ∅
    = (λ res, (insert_at 1 no_data res.1, res.2))
        <$> process_rows [row_square; row_triangle] ∅
  ∧ process_rows [row_square; row_garbled; row_triangle] ∅ = Raise JSONDecodeError.
Proof.
  split.
  - exact (proj2 (proj2 (proj1
      (process_rows_fetch_failure row_missing "http://svc/missing"
         (Response 404 (Raise JSONDecodeError)) [row_square] [row_triangle] ∅
         eq_refl eq_refl) ltac:(done)))).
  - exact (proj2 (proj2
      (process_rows_fetch_failure row_garbled "http://svc/garbled"
         (Response 200 (Raise JSONDecodeError)) [row_square] [row_triangle] ∅
         eq_refl eq_refl) JSONDecodeError eq_refl eq_refl)).
Defined.

(** A body that does not decode, in the first of two rows: the loop raises
    and the second row is never reached. *)
Lemma process_rows_garbled_raises :
  process_rows [row_garbled; row_square] ∅ = Raise JSONDecodeError.
Proof. reflexivity. Qed.

(** An answer without features raises in convert_coordinates. *)
Example process_rows_nofeatures_raises :
  process_rows [row_nofeatures; row_square] ∅ = Raise IndexError.
Proof. reflexivity. Qed.

Lemma process_rows_centroids_witness :
  ∃ out seen',
    process_row row_triangle {[ (0, 0); (10, 0); (10, 10); (0, 10) ]} = Ok (out, seen')
    ∧ Converted_Coordinates out = Some [(20, 10); (20, 20)]
    ∧ Central_Lat out = Some 16
    ∧ Central_Lon out = Some 13.
Proof.
  exact (proj2 (process_rows_centroids [] {[ (0, 0); (10, 0); (10, 10); (0, 10) ]})
           row_triangle [(10, 10); (20, 10); (20, 20)] (Some 16) (Some 13)
           eq_refl).
Defined.

(** The same parcel twice in a batch: the second record keeps no vertex and
    keeps its centroid. *)
Example process_rows_same_twice :
  (λ res : list out_record * gset (Z * Z),
     (λ o, (Converted_Coordinates o, Central_Lat o, Central_Lon o)) <$> res.1)
    <$> process_rows [row_square; row_square] ∅
  = Ok [(Some [(0, 0); (10, 0); (10, 10); (0, 10)], Some 5, Some 5);
        (Some [], Some 5, Some 5)].
Proof. reflexivity. Qed.

(** The whole run on the session's records: a square and a triangle that
    share a corner give 4 + 2 rows. *)
Example processing_data_two_parcels :
  length <$> processing_data [record_of 1 "http://svc/square";
                              record_of 2 "http://svc/triangle"]
  = Ok 6%nat.
Proof. reflexivity. Qed.

(** A run whose first request is answered with 404 ends in the exception of
    the projection; with the failed request second, the run returns, with one
    row of missing values for it. *)
Example processing_data_missing_first :
  processing_data [record_of 3 "http://svc/missing";
                   record_of 1 "http://svc/square"]
  = Raise ValueError.
Proof. reflexivity. Qed.

Example processing_data_missing_second :
  length <$> processing_data [record_of 1 "http://svc/square";
                              record_of 3 "http://svc/missing"]
  = Ok 5%nat.
Proof. reflexivity. Qed.

(** The status 404 alone: an all-None record, and the next row is processed. *)
Example process_rows_missing :
  (λ res : list out_record * gset (Z * Z), Converted_Coordinates <$> res.1)
    <$> process_rows [row_missing; row_square] ∅
  = Ok [None; Some [(0, 0); (10, 0); (10, 10); (0, 10)]].
Proof. reflexivity. Qed.
End batch_sample.

(** ** The collector *)

Section collect_facts.
Context {num : Type} `{Countable num}.
Implicit Types (vs : list (num * num)) (seen : gset (num * num)) (p c : num * num).

Lemma elem_of_collect_kept c vs seen :
  c ∈ (collect vs seen).1 ↔ c ∈ vs ∧ c ∉ seen.
Proof. unfold collect. simpl. rewrite list_elem_of_filter. tauto. Qed.

Lemma elem_of_collect_seen c vs seen :
  c ∈ (collect vs seen).2 ↔ c ∈ seen ∨ c ∈ vs.
Proof.
  unfold collect. simpl. rewrite elem_of_union, elem_of_list_to_set, list_elem_of_filter.
  destruct (decide (c ∈ seen)); tauto.
Qed.

Lemma collect_fresh vs seen :
  (∀ c, c ∈ vs → c ∉ seen) → (collect vs seen).1 = vs.
Proof.
  unfold collect. simpl. induction vs as [|c vs IH]; intros Hfresh; [done|].
  rewrite filter_cons_True by (apply Hfresh; left).
  f_equal. apply IH. intros c' Hc'. apply Hfresh. by right.
Qed.

Lemma filter_ext_elem_of (P Q : num * num → Prop)
    `{!∀ c, Decision (P c), !∀ c, Decision (Q c)} vs :
  (∀ c, c ∈ vs → P c ↔ Q c) → filter P vs = filter Q vs.
Proof.
  induction vs as [|c vs IH]; intros Hext; [done|].
  rewrite !filter_cons. rewrite IH by (intros c' Hc'; apply Hext; by right).
  assert (P c ↔ Q c) by (apply Hext; left).
  repeat case_decide; tauto || done.
Qed.

Lemma occurrences_cons p c vs :
  occurrences p (c :: vs) =
    if decide (c = p) then S (occurrences p vs) else occurrences p vs.
Proof. unfold occurrences. rewrite filter_cons. by case_decide. Qed.

(** Exactly one vertex of a list without repetitions is in the set: the
    filter drops one item. *)
Lemma length_filter_one p vs seen :
  NoDup vs → p ∈ vs → (∀ q, q ∈ vs → q ∈ seen ↔ q = p) →
  S (length (filter (λ c, c ∉ seen) vs)) = length vs.
Proof.
  induction vs as [|c vs IH]; intros Hnd Hp Hone; [by apply elem_of_nil in Hp|].
  apply NoDup_cons in Hnd as [Hc Hnd].
  destruct (decide (c = p)) as [->|Hne].
  - rewrite filter_cons_False.
    2:{ intros Hn. apply Hn, Hone; [left|done]. }
    simpl. f_equal.
    change (filter (λ c, c ∉ seen) vs) with (collect vs seen).1.
    rewrite collect_fresh; [done|].
    intros q Hq Hqs. apply Hone in Hqs; [|by right]. by subst.
  - rewrite filter_cons_True.
    2:{ intros Hcs. apply Hone in Hcs; [done|left]. }
    simpl. f_equal. apply IH; [done| |].
    + apply elem_of_cons in Hp as [?|?]; [congruence|done].
    + intros q Hq. apply Hone. by right.
Qed.

(** A list without repetitions that holds nothing but [p] is [[p]]. *)
Lemma filter_ne_nil p vs :
  NoDup vs → p ∈ vs → filter (λ c, c ≠ p) vs = [] ↔ vs = [p].
Proof.
  intros Hnd Hp. split.
  - destruct vs as [|a vs]; [by apply elem_of_nil in Hp|].
    rewrite filter_cons. case_decide as Ha; [done|].
    assert (a = p) as -> by (by destruct (decide (a = p))).
    destruct vs as [|b vs]; [done|].
    rewrite filter_cons. case_decide as Hb; [done|].
    assert (b = p) as -> by (by destruct (decide (b = p))).
    apply NoDup_cons in Hnd as [Hn _]. exfalso. apply Hn. left.
  - intros ->. rewrite filter_cons_False; [done|]. by intros ?.
Qed.

(** The collector keeps, in their order, the candidates that are not in
    the set and adds what it kept to the set. Hence, from an empty set, two
    vertex lists that share the one pair [p], the second without
    repetitions: the first list is kept whole, [p] with it, the second list
    is kept without [p], and the two kept lists have together one vertex less
    than the two lists. *)
Lemma collect_dedup vs seen (v1 v2 : list (num * num)) p :
  ((collect vs seen).1 = filter (λ c, c ∉ seen) vs
   ∧ (collect vs seen).1 `sublist_of` vs
   ∧ (collect vs seen).2 = seen ∪ list_to_set (collect vs seen).1
   ∧ ∀ c, c ∈ (collect vs seen).2 ↔ c ∈ seen ∨ c ∈ vs)
  ∧ (NoDup v2 → p ∈ v1 → p ∈ v2 → (∀ q, q ∈ v1 → q ∈ v2 → q = p) →
     let first := collect v1 ∅ in
     let second := collect v2 first.2 in
     first.1 = v1 ∧ p ∈ first.1 ∧ (p ∉ second.1)
     ∧ second.1 = filter (λ c, c ≠ p) v2
     ∧ (length first.1 + length second.1 = length v1 + length v2 - 1)%nat).
Proof.
  split.
  { split; [done|]. split; [apply sublist_filter|]. split; [done|].
    intros c. apply elem_of_collect_seen. }
  intros Hnd Hp1 Hp2 Hshare first second.
  assert (first.1 = v1) as Hfirst.
  { apply collect_fresh. intros c _. apply not_elem_of_empty. }
  assert (∀ q, q ∈ v2 → q ∈ first.2 ↔ q = p) as Hone.
  { intros q Hq. unfold first. rewrite elem_of_collect_seen. split.
    - intros [Hq'|Hq']; [by apply not_elem_of_empty in Hq'|by apply Hshare].
    - intros ->. by right. }
  split; [done|]. split; [by rewrite Hfirst|]. split.
  { unfold second. rewrite elem_of_collect_kept. intros [_ Hn].
    by apply Hn, Hone. }
  split.
  { unfold second, collect. simpl. apply filter_ext_elem_of.
    intros q Hq. by rewrite <-(Hone q Hq). }
  rewrite Hfirst.
  pose proof (length_filter_one p v2 first.2 Hnd Hp2 Hone) as Hlen.
  change second.1 with (filter (λ c, c ∉ first.2) v2). lia.
Qed.

(** C10: a pair that is not in the set when a record begins is kept as
    often as the record's list holds it: the candidates are compared with the
    set as it was before the record, which is updated only afterwards. *)
Theorem collect_keeps_repetitions vs seen p :
  p ∉ seen → occurrences p (collect vs seen).1 = occurrences p vs.
Proof.
  intros Hp. unfold collect. simpl.
  induction vs as [|c vs IH]; [done|].
  rewrite occurrences_cons. destruct (decide (c ∈ seen)) as [Hc|Hc].
  - rewrite filter_cons_False by tauto.
    case_decide; [congruence|done].
  - rewrite filter_cons_True by done.
    rewrite occurrences_cons. by rewrite IH.
Qed.
End collect_facts.

Section collect_sample.
Import Sample.

Example collect_square_triangle :
  let v1 := [(0, 0); (10, 0); (10, 10); (0, 10)] in
  let v2 := [(10, 10); (20, 10); (20, 20)] in
  let first := collect v1 ∅ in
  let second := collect v2 first.2 in
  first.1 = v1 ∧ (10, 10) ∈ first.1 ∧ ((10, 10) ∉ second.1)
  ∧ second.1 = [(20, 10); (20, 20)]
  ∧ (length first.1 + length second.1 = 4 + 3 - 1)%nat.
Proof.
  refine (proj2 (collect_dedup [] ∅ [(0, 0); (10, 0); (10, 10); (0, 10)]
                   [(10, 10); (20, 10); (20, 20)] (10, 10)) _ _ _ _).
  - by apply (bool_decide_unpack _).
  - by apply (bool_decide_unpack _).
  - by apply (bool_decide_unpack _).
  - apply (Forall_forall (λ q, q ∈ [(10, 10); (20, 10); (20, 20)] → q = (10, 10))).
    by apply (bool_decide_unpack _).
Qed.

Lemma collect_keeps_repetitions_witness :
  occurrences (0, 0) (collect [(0, 0); (10, 0); (10, 10); (0, 0)] ∅).1 = 2%nat.
Proof.
  exact (collect_keeps_repetitions [(0, 0); (10, 0); (10, 10); (0, 0)] ∅ (0, 0)
           (not_elem_of_empty _)).
Defined.

(** The same through the loop: the corner on which the ring closes is in the
    record's list twice. *)
Example process_rows_closed_ring :
  convert_coordinates (geometry_json closed_ring)
    = Ok (Some [(0, 0); (10, 0); (10, 10); (0, 0)], Some 5, Some 2)
  ∧ (collect [(0, 0); (10, 0); (10, 10); (0, 0)] ∅).1
    = [(0, 0); (10, 0); (10, 10); (0, 0)].
Proof. split; reflexivity. Qed.
End collect_sample.

(** ** create_output_dataframe *)

Section frame_facts.
Context {num : Type} `{Countable num} `{!PyFloat num}.
Implicit Types (r : out_record (num:=num)) (df : list (out_record (num:=num))).

Lemma explode_cons r df :
  explode (r :: df) =
    ((λ c, (r, c)) <$> explode_cell (Converted_Coordinates r)) ++ explode df.
Proof. done. Qed.

Lemma explode_app df1 df2 : explode (df1 ++ df2) = explode df1 ++ explode df2.
Proof. unfold explode. apply bind_app. Qed.

(** Both columns are read off the same cells, so the zip of the three
    columns is a map over the exploded rows. *)
Lemma zip_with_make_row (l : list (out_record (num:=num) * option (num * num))) :
  zip_with (λ r ll, make_row r ll.1 ll.2) (l.*1)
    (zip ((λ c : option (num * num), fst <$> c) <$> l.*2)
         ((λ c : option (num * num), snd <$> c) <$> l.*2))
  = (λ rc, make_row rc.1 (fst <$> rc.2) (snd <$> rc.2)) <$> l.
Proof. induction l as [|[r c] l IH]; [done|]. simpl. f_equal. apply IH. Qed.

Lemma explode_record_rows df :
  (λ rc, make_row rc.1 (fst <$> rc.2) (snd <$> rc.2)) <$> explode df
  = df ≫= record_rows.
Proof.
  induction df as [|r df IH]; [done|].
  rewrite explode_cons, fmap_app, IH. cbn [mbind list_bind].
  f_equal. unfold record_rows. by rewrite <-list_fmap_compose.
Qed.

(** The function as a whole: it returns when the first exploded cell is a
    vertex, and then with the rows of the records one after the other. *)
Lemma create_output_dataframe_cases df :
  create_output_dataframe df =
    match explode df with
    | (_, Some _) :: _ => Ok (df ≫= record_rows)
    | _ => Raise ValueError
    end.
Proof.
  unfold create_output_dataframe.
  destruct (explode df) as [|[r [c|]] l] eqn:He; [done| |done].
  cbn [fmap list_fmap DataFrame_of_cells setitem_Lat_Long snd mbind result_bind].
  rewrite <-explode_record_rows, He. f_equal.
  apply (zip_with_make_row ((r, Some c) :: l)).
Qed.

Lemma create_output_dataframe_first_vertex r0 p ps df :
  Converted_Coordinates r0 = Some (p :: ps) →
  create_output_dataframe (r0 :: df) = Ok ((r0 :: df) ≫= record_rows).
Proof.
  intros H0. rewrite create_output_dataframe_cases, explode_cons, H0. done.
Qed.

(** A first record without a vertex: the frame built from the cells has one
    column and the assignment to the two columns raises. *)
Lemma create_output_dataframe_first_missing r0 df :
  Converted_Coordinates r0 = None ∨ Converted_Coordinates r0 = Some [] →
  create_output_dataframe (r0 :: df) = Raise ValueError.
Proof.
  intros H0. rewrite create_output_dataframe_cases, explode_cons.
  by destruct H0 as [-> | ->].
Qed.

Lemma record_rows_missing r :
  Converted_Coordinates r = None ∨ Converted_Coordinates r = Some [] →
  record_rows r = [make_row r None None].
Proof. unfold record_rows. by intros [-> | ->]. Qed.

(** A record gives as many rows as it has vertices, and one row when it has
    none. *)
Lemma length_record_rows r :
  length (record_rows r) =
    match Converted_Coordinates r with
    | Some (p :: l) => S (length l)
    | _ => 1%nat
    end.
Proof.
  unfold record_rows. rewrite length_fmap.
  destruct (Converted_Coordinates r) as [[|p l]|]; simpl; [done| |done].
  by rewrite length_fmap.
Qed.

(** C5, as the projection has it: in a frame whose first record has a
    vertex, a record with an empty or absent vertex list is not left out. The
    explode keeps one row for it, with Lat and Long missing; the function
    returns, and the rows of the records before and after it are those of the
    frame without that record. *)
Theorem create_output_dataframe_no_vertices r0 p ps df1 r df2 :
  Converted_Coordinates r0 = Some (p :: ps) →
  Converted_Coordinates r = None ∨ Converted_Coordinates r = Some [] →
  ∃ rows1 rows2,
    create_output_dataframe (r0 :: df1) = Ok rows1
    ∧ create_output_dataframe (r0 :: df1 ++ df2) = Ok (rows1 ++ rows2)
    ∧ create_output_dataframe (r0 :: df1 ++ r :: df2)
      = Ok (rows1 ++ make_row r None None :: rows2).
Proof.
  intros H0 Hr.
  exists ((r0 :: df1) ≫= record_rows), (df2 ≫= record_rows).
  rewrite !(create_output_dataframe_first_vertex _ _ _ _ H0).
  split; [done|]. rewrite !app_comm_cons, !bind_app. split; [done|].
  do 2 f_equal. rewrite bind_cons. by rewrite (record_rows_missing _ Hr).
Qed.

End frame_facts.

(** ** The rows of two records that share a vertex *)

Section dedup_rows.
Context {num : Type} `{Countable num} `{!PyFloat num} `{!Projection num}
  `{!Network num}.

(** C4, with the rows as the table has them: the collector keeps, in their
    order, the candidates that are not in the set and adds what it kept to
    the set. Hence, for a run on two records whose vertex lists share the one
    pair [p], the second without repetitions: the first list is kept whole,
    [p] with it, the second list is kept without [p], and the two kept lists
    have together one vertex less than the two lists. The table has a row for
    each kept vertex, len1 + len2 - 1 rows, when the second list has a vertex
    besides [p]; when [p] is all the second list has, the second record keeps
    no vertex and has one row all the same, with Lat and Long missing, and
    the table has len1 + 1 rows. *)
Theorem processing_data_dedup (vs : list (num * num)) (seen : gset (num * num))
    (record1 record2 : lookup) (v1 v2 : list (num * num)) (p : num * num)
    (clat1 clon1 clat2 clon2 : option num) :
  ((collect vs seen).1 = filter (λ c, c ∉ seen) vs
   ∧ (collect vs seen).1 `sublist_of` vs
   ∧ (collect vs seen).2 = seen ∪ list_to_set (collect vs seen).1
   ∧ ∀ c, c ∈ (collect vs seen).2 ↔ c ∈ seen ∨ c ∈ vs)
  ∧ (row_transform <$> df_of_recorduri [record1; record2]
       = [Ok (Some v1, clat1, clon1); Ok (Some v2, clat2, clon2)] →
     NoDup v2 → p ∈ v1 → p ∈ v2 → (∀ q, q ∈ v1 → q ∈ v2 → q = p) →
     let first := collect v1 ∅ in
     let second := collect v2 first.2 in
     first.1 = v1 ∧ p ∈ first.1 ∧ (p ∉ second.1)
     ∧ second.1 = filter (λ c, c ≠ p) v2
     ∧ (length first.1 + length second.1 = length v1 + length v2 - 1)%nat
     ∧ ∃ rows,
         processing_data [record1; record2] = Ok rows
         ∧ (λ row, (Lat row, Long row)) <$> rows
           = ((λ c, (Some c.1, Some c.2)) <$> v1)
             ++ (if decide (v2 = [p]) then [(None, None)]
                 else (λ c, (Some c.1, Some c.2)) <$> second.1)
         ∧ length rows = (if decide (v2 = [p]) then length v1 + 1
                          else length v1 + length v2 - 1)%nat).
Proof.
  split; [apply (proj1 (collect_dedup vs seen [] [] p))|].
  intros Ht Hnd Hp1 Hp2 Hshare first second.
  destruct (proj2 (collect_dedup [] ∅ v1 v2 p) Hnd Hp1 Hp2 Hshare)
    as (Hfirst & Hpf & Hps & Hsecond & Hlen).
  fold first second in Hfirst, Hpf, Hps, Hsecond, Hlen.
  do 5 (split; [done|]).
  injection Ht as Ht1 Ht2.
  unfold processing_data. cbn [df_of_recorduri fmap list_fmap process_rows].
  rewrite process_row_transform. bind_ok Ht1.
  rewrite process_row_transform. bind_ok Ht2.
  fold first. fold second. rewrite Hfirst.
  destruct v1 as [|p1 v1]; [by apply elem_of_nil in Hp1|].
  erewrite create_output_dataframe_first_vertex by done.
  match goal with
  | |- context [(?o1 :: ?o2 :: []) ≫= record_rows] => set (r1 := o1); set (r2 := o2)
  end.
  eexists. split; [done|].
  assert (∀ r l, Converted_Coordinates r = Some l →
    (λ row, (Lat row, Long row)) <$> record_rows r
    = if decide (l = []) then [(None, None)]
      else (λ c, (Some c.1, Some c.2)) <$> l) as Hrows.
  { intros r l Hl. unfold record_rows. rewrite Hl, <-list_fmap_compose.
    destruct l as [|c l]; [done|]. cbn [explode_cell].
    by rewrite <-list_fmap_compose, decide_False by done. }
  assert ((λ row, (Lat row, Long row)) <$> [r1; r2] ≫= record_rows
    = ((λ c, (Some c.1, Some c.2)) <$> p1 :: v1)
      ++ (if decide (v2 = [p]) then [(None, None)]
          else (λ c, (Some c.1, Some c.2)) <$> second.1)) as Hcols.
  { rewrite !bind_cons, !fmap_app.
    rewrite (Hrows r1 (p1 :: v1)), (Hrows r2 second.1) by done.
    change ([] ≫= record_rows) with (@nil (vertex_row (num:=num))).
    rewrite fmap_nil, app_nil_r. f_equal.
    pose proof (filter_ne_nil p v2 Hnd Hp2) as Hone. rewrite <-Hsecond in Hone.
    repeat case_decide; tauto || done. }
  split; [exact Hcols|].
  apply (f_equal length) in Hcols.
  rewrite length_fmap in Hcols. rewrite Hcols, length_app, length_fmap.
  rewrite Hfirst in Hlen.
  case_decide as Hv2; [simpl; lia|].
  rewrite length_fmap. destruct v2; [by apply elem_of_nil in Hp2|]. simpl in *. lia.
Qed.
End dedup_rows.

Section dedup_rows_sample.
Import Sample.

Lemma processing_data_dedup_witness :
  let v1 := [(0, 0); (10, 0); (10, 10); (0, 10)] in
  let v2 := [(10, 10); (20, 10); (20, 20)] in
  let first := collect v1 ∅ in
  let second := collect v2 first.2 in
  first.1 = v1 ∧ (10, 10) ∈ first.1 ∧ ((10, 10) ∉ second.1)
  ∧ second.1 = [(20, 10); (20, 20)]
  ∧ (length first.1 + length second.1 = 4 + 3 - 1)%nat
  ∧ ∃ rows,
      processing_data [record_of 1 "http://svc/square";
                       record_of 2 "http://svc/triangle"] = Ok rows
      ∧ (λ row, (Lat row, Long row)) <$> rows
        = [(Some 0, Some 0); (Some 10, Some 0); (Some 10, Some 10);
           (Some 0, Some 10); (Some 20, Some 10); (Some 20, Some 20)]
      ∧ length rows = (4 + 3 - 1)%nat.
Proof.
  refine (proj2 (processing_data_dedup [] ∅
                   (record_of 1 "http://svc/square")
                   (record_of 2 "http://svc/triangle")
                   [(0, 0); (10, 0); (10, 10); (0, 10)]
                   [(10, 10); (20, 10); (20, 20)] (10, 10)
                   (Some 5) (Some 5) (Some 16) (Some 13)) eq_refl _ _ _ _).
  - by apply (bool_decide_unpack _).
  - by apply (bool_decide_unpack _).
  - by apply (bool_decide_unpack _).
  - apply (Forall_forall (λ q, q ∈ [(10, 10); (20, 10); (20, 20)] → q = (10, 10))).
    by apply (bool_decide_unpack _).
Defined.

(** A square and a parcel whose one vertex is a corner of the square: the
    lists have 4 and 1 vertices and share that one; the table has 5 rows,
    not 4 + 1 - 1. *)
Lemma processing_data_shared_corner :
  row_transform <$> df_of_recorduri [record_of 1 "http://svc/square";
                                     record_of 2 "http://svc/corner"]
  = [Ok (Some [(0, 0); (10, 0); (10, 10); (0, 10)], Some 5, Some 5);
     Ok (Some [(10, 10)], Some 10, Some 10)]
  ∧ fmap (M:=list) (λ row : vertex_row, (row_Cadastral_number row, Lat row, Long row))
      <$> processing_data [record_of 1 "http://svc/square";
                           record_of 2 "http://svc/corner"]
    = Ok [(Some 1, Some 0, Some 0); (Some 1, Some 10, Some 0);
          (Some 1, Some 10, Some 10); (Some 1, Some 0, Some 10);
          (Some 2, None, None)]
  ∧ length <$> processing_data [record_of 1 "http://svc/square";
                                record_of 2 "http://svc/corner"]
    = Ok 5%nat.
Proof. split; [|split]; reflexivity. Qed.
End dedup_rows_sample.

Section frame_sample.
Import Sample.

Lemma create_output_dataframe_no_vertices_witness :
  ∃ rows1 rows2,
    create_output_dataframe [two_vertices] = Ok rows1
    ∧ create_output_dataframe [two_vertices] = Ok (rows1 ++ rows2)
    ∧ create_output_dataframe [two_vertices; no_data]
      = Ok (rows1 ++ make_row no_data None None :: rows2).
Proof.
  exact (create_output_dataframe_no_vertices two_vertices (0, 0) [(10, 0)]
           [] no_data [] eq_refl (or_introl eq_refl)).
Defined.

(** The all-None record after a record with two vertices: three rows, the
    third one for the all-None record. *)
Lemma create_output_dataframe_keeps_missing :
  create_output_dataframe [two_vertices; no_data]
  = Ok [make_row two_vertices (Some 0) (Some 0);
        make_row two_vertices (Some 10) (Some 0);
        make_row no_data None None].
Proof. reflexivity. Qed.

(** The all-None record first: nothing is returned for either record. *)
Example create_output_dataframe_missing_first :
  create_output_dataframe [no_data; two_vertices] = Raise ValueError.
Proof. reflexivity. Qed.


(** The triangle through the loop and the table: the vertex (20, 10), of
    longitude 20 and latitude 10, has the link of 20,10; the centroid, of mean
    longitude 16 and mean latitude 13, has the link of 13,16. *)
Example links_of_triangle :
  fmap (M:=list) (λ row : vertex_row,
     (Lat row, Long row, row_Central_Lat row, row_Central_Lon row,
      Google_Maps_Link row, Google_Maps_Link_Central_Point row))
    <$> processing_data [record_of 2 "http://svc/triangle"]
  = Ok [(Some 10, Some 10, Some 16, Some 13,
         "https://maps.google.com/?q=10,10", "https://maps.google.com/?q=13,16");
        (Some 20, Some 10, Some 16, Some 13,
         "https://maps.google.com/?q=20,10", "https://maps.google.com/?q=13,16");
        (Some 20, Some 20, Some 16, Some 13,
         "https://maps.google.com/?q=20,20", "https://maps.google.com/?q=13,16")].
Proof. reflexivity. Qed.

Example links_of_two_vertices :
  (λ row, (Google_Maps_Link row, Google_Maps_Link_Central_Point row))
    <$> [make_row two_vertices (Some 10) (Some 0)]
  = [("https://maps.google.com/?q=10,0", "https://maps.google.com/?q=0,5")].
Proof. reflexivity. Qed.
End frame_sample.

(** ** The list of records of the session *)

Section store_facts.
Implicit Types (l : list lookup) (r : lookup) (s : session).

Lemma append_if_new_NoDup l r : NoDup l → NoDup (append_if_new l r).
Proof.
  intros Hl. unfold append_if_new. case_decide as Hr; [done|].
  apply NoDup_app. split; [done|]. split; [|apply NoDup_singleton].
  intros x Hx ->%list_elem_of_singleton. done.
Qed.

Lemma append_if_new_present l r : r ∈ l → append_if_new l r = l.
Proof. intros Hr. unfold append_if_new. by case_decide. Qed.

Lemma append_if_new_absent l r : r ∉ l → append_if_new l r = l ++ [r].
Proof. intros Hr. unfold append_if_new. by case_decide. Qed.

Lemma foldl_append_if_new_NoDup l rs : NoDup l → NoDup (foldl append_if_new l rs).
Proof.
  revert l. induction rs as [|r rs IH]; intros l Hl; [done|].
  simpl. by apply IH, append_if_new_NoDup.
Qed.

Lemma delete_record_NoDup index l l' :
  delete_record index l = Ok l' → NoDup l → NoDup l'.
Proof.
  unfold delete_record. case_decide; [|done]. intros [= <-] Hl.
  eapply sublist_NoDup; [done|apply sublist_delete].
Qed.

Lemma on_add_NoDup j c jid cid nr s :
  NoDup (records s) → NoDup (records (on_add j c jid cid nr s)).
Proof.
  intros Hs. unfold on_add.
  destruct (_ && _); [|done]. by apply append_if_new_NoDup.
Qed.

Lemma on_add_dummy_NoDup s : NoDup (records s) → NoDup (records (on_add_dummy s)).
Proof. intros Hs. by apply foldl_append_if_new_NoDup. Qed.

Lemma on_delete_NoDup index s :
  NoDup (records s) → NoDup (records (on_delete index s)).
Proof.
  intros Hs. unfold on_delete. destruct s as [[|r l]|]; try done.
  destruct (delete_record index (r :: l)) as [l'|] eqn:Hd; [|done].
  by apply (delete_record_NoDup _ _ _ Hd).
Qed.

(** Every click keeps the list free of repetitions. *)
Lemma session_step_NoDup s (c : click) :
  NoDup (records s) → NoDup (records (session_step s c)).
Proof.
  intros Hs. destruct c; simpl.
  - by apply on_add_NoDup.
  - by apply on_add_dummy_NoDup.
  - by apply on_delete_NoDup.
Qed.

Lemma foldl_session_step_NoDup s (clicks : list click) :
  NoDup (records s) → NoDup (records (foldl session_step s clicks)).
Proof.
  revert s. induction clicks as [|c clicks IH]; intros s Hs; [done|].
  simpl. by apply IH, session_step_NoDup.
Qed.

(** C9: whatever the user clicks (Add, Add Dummy Data, Delete), from the
    first run of the script on, the list of records never holds two equal
    records: both insertions append a record only when the list does not
    hold it, and a deletion removes one item. *)
Theorem session_run_NoDup (clicks : list click) : NoDup (records (session_run clicks)).
Proof. apply foldl_session_step_NoDup. simpl. apply NoDup_nil_2. Qed.
End store_facts.

(** The same record added twice, and the dummy data twice: one copy each. *)
Example session_run_twice :
  length (records (session_run
    [ClickAdd "Arges" "Ungheni" 36 19560 12476; ClickAddDummy;
     ClickAdd "Arges" "Ungheni" 36 19560 12476; ClickAddDummy]))
  = 3%nat.
Proof. vm_compute. reflexivity. Qed.

(** * Further properties of the code *)

(** ** The regular expression of extract_url_from_html *)

Section url_facts.
Implicit Types (s u r html url : string).

Lemma append_cons c s r : String c s +:+ r = String c (s +:+ r).
Proof. done. Qed.

Lemma strip_prefix_Some p s rest : strip_prefix p s = Some rest → s = p +:+ rest.
Proof.
  revert s. induction p as [|a p IH]; intros s; simpl.
  - by intros [= ->].
  - destruct s as [|b s]; [done|]. case_decide; [|done].
    intros Hs. subst. rewrite append_cons. f_equal. by apply IH.
Qed.

Lemma span_unquoted_split s u r :
  span_unquoted s = (u, r) →
  s = u +:+ r ∧ unquoted u ∧ (r = "" ∨ ∃ r', r = String dquote r').
Proof.
  revert u r. induction s as [|c s IH]; intros u r; simpl.
  - intros [= <- <-]. split; [done|]. split; [done|]. by left.
  - case_decide as Hc.
    + intros [= <- <-]. subst. split; [done|]. split; [done|]. right. by eexists.
    + destruct (span_unquoted s) as [u' r'] eqn:Hs. intros [= <- <-].
      destruct (IH _ _ eq_refl) as (-> & ? & ?).
      rewrite append_cons. split; [done|]. split; [|done]. by simpl.
Qed.

Lemma match_href_Some s u :
  match_href s = Some u →
  u ≠ "" ∧ unquoted u
  ∧ ∃ post, s = "href=" +:+ String dquote u +:+ String dquote post.
Proof.
  unfold match_href.
  destruct (strip_prefix _ s) as [rest|] eqn:Hp; [|done].
  apply strip_prefix_Some in Hp. cbn [mbind option_bind].
  destruct (span_unquoted rest) as [u' r] eqn:Hs.
  apply span_unquoted_split in Hs as (-> & Hu & Hr).
  destruct u' as [|c u']; [done|]. destruct r as [|c' r]; [done|].
  intros [= <-]. destruct Hr as [?|[r' [= -> ->]]]; [done|].
  split; [done|]. split; [done|]. exists r'. by rewrite Hp.
Qed.

Lemma unquoted_app s r : unquoted (s +:+ r) ↔ unquoted s ∧ unquoted r.
Proof.
  induction s as [|c s IH]; [simpl; tauto|].
  rewrite append_cons. simpl. rewrite IH. tauto.
Qed.

Lemma re_search_href_Some html url :
  re_search_href html = Some url →
  url ≠ "" ∧ unquoted url
  ∧ ∃ pre post, html = pre +:+ "href=" +:+ String dquote url +:+ String dquote post.
Proof.
  induction html as [|c html IH]; cbn [re_search_href].
  - destruct (match_href "") as [u|] eqn:Hm; [|done].
    by apply match_href_Some in Hm as (_ & _ & post & ?).
  - destruct (match_href (String c html)) as [u|] eqn:Hm.
    + intros [= <-]. apply match_href_Some in Hm as (? & ? & post & Hs).
      split; [done|]. split; [done|]. exists "", post. by rewrite Hs.
    + intros (? & ? & pre & post & ->)%IH.
      split; [done|]. split; [done|]. by exists (String c pre), post.
Qed.

(** A match is a non-empty run without a quote that stands in the text
    between [href=Q] and a closing quote: the function never returns an empty
    URL, so the test [if url] of the loop fails only when there is no match. *)
Theorem extract_url_from_html_match html url :
  extract_url_from_html html = Some url →
  url ≠ "" ∧ unquoted url
  ∧ ∃ pre post, html = pre +:+ "href=" +:+ String dquote url +:+ String dquote post.
Proof. apply re_search_href_Some. Qed.

(** A text without any quote has no match: the function returns None. *)
Theorem extract_url_from_html_unquoted html :
  unquoted html → extract_url_from_html html = None.
Proof.
  intros Hq. destruct (extract_url_from_html html) as [url|] eqn:He; [|done].
  apply re_search_href_Some in He as (_ & _ & pre & post & ->).
  apply unquoted_app in Hq as [_ Hq]. simpl in Hq.
  by destruct Hq as (_ & _ & _ & _ & _ & ? & _).
Qed.
End url_facts.

Lemma extract_url_from_html_match_witness :
  "http://svc/square" ≠ "" ∧ unquoted "http://svc/square"
  ∧ ∃ pre post, anchor "http://svc/square"
      = pre +:+ "href=" +:+ String dquote "http://svc/square" +:+ String dquote post.
Proof.
  exact (extract_url_from_html_match (anchor "http://svc/square")
           "http://svc/square" eq_refl).
Defined.

Lemma extract_url_from_html_unquoted_witness :
  extract_url_from_html "<a>request_link</a>" = None.
Proof.
  refine (extract_url_from_html_unquoted "<a>request_link</a>" _).
  simpl. repeat split; discriminate.
Defined.

(** ** The links of the session's records *)

Section link_facts.
Implicit Types (s t : string) (c : Ascii.ascii) (z : Z).

Lemma avoids_app c s t : avoids c (s +:+ t) ↔ avoids c s ∧ avoids c t.
Proof.
  induction s as [|c' s IH]; [simpl; tauto|].
  rewrite append_cons. simpl. rewrite IH. tauto.
Qed.

Lemma unquoted_avoids s : unquoted s ↔ avoids dquote s.
Proof. induction s as [|c s IH]; simpl; [done|]. by rewrite IH. Qed.

Lemma avoids_pretty_N_char c (x : N) :
  avoids c decimal_chars → pretty_N_char x ≠ c.
Proof.
  unfold decimal_chars, pretty_N_char. simpl. intros Hc.
  repeat case_match; tauto.
Qed.

Lemma avoids_pretty_N_go c (x : N) s :
  avoids c decimal_chars → avoids c s → avoids c (pretty_N_go x s).
Proof.
  intros Hc. revert s. induction (N.lt_wf_0 x) as [x _ IH]; intros s Hs.
  destruct (decide (x = 0)%N) as [->|Hx]; [by rewrite pretty_N_go_0|].
  rewrite pretty_N_go_step by lia. apply IH.
  - apply N.div_lt; lia.
  - simpl. split; [by apply avoids_pretty_N_char|done].
Qed.

Lemma avoids_pretty_N c (x : N) : avoids c decimal_chars → avoids c (pretty x).
Proof.
  intros Hc. unfold pretty, pretty_N. case_decide.
  - simpl. unfold decimal_chars in Hc. simpl in Hc. tauto.
  - by apply avoids_pretty_N_go.
Qed.

(** The decimal text of an integer holds digits and a minus sign only. *)
Lemma avoids_pretty_Z c z : avoids c decimal_chars → avoids c (pretty z).
Proof.
  intros Hc. destruct z as [|p|p]; unfold pretty, pretty_Z.
  - simpl. unfold decimal_chars in Hc. simpl in Hc. tauto.
  - by apply (avoids_pretty_N c (Npos p)).
  - apply avoids_app. split; [|by apply (avoids_pretty_N c (Npos p))].
    simpl. unfold decimal_chars in Hc. simpl in Hc. tauto.
Qed.

#[local] Instance avoids_dec c s : Decision (avoids c s).
Proof. induction s; simpl; apply _. Defined.

Lemma build_link_unquoted (judet_id comuna_id nr : Z) :
  unquoted (build_link judet_id comuna_id nr).
Proof.
  apply unquoted_avoids. unfold build_link.
  assert (avoids dquote decimal_chars) as Hd by (by apply (bool_decide_unpack _)).
  rewrite !avoids_app. repeat split; try by apply avoids_pretty_Z.
  all: by apply (bool_decide_unpack _).
Qed.

Lemma build_link_nonempty (judet_id comuna_id nr : Z) :
  build_link judet_id comuna_id nr ≠ "".
Proof. unfold build_link, query_prefix. by rewrite append_cons. Qed.

Lemma append_if_new_link_ok l r :
  Forall link_ok l → link_ok r → Forall link_ok (append_if_new l r).
Proof.
  intros Hl Hr. unfold append_if_new. case_decide; [done|].
  apply Forall_app. split; [done|]. by apply Forall_singleton.
Qed.

Lemma foldl_append_if_new_link_ok l rs :
  Forall link_ok l → Forall link_ok rs → Forall link_ok (foldl append_if_new l rs).
Proof.
  intros Hl Hrs. revert l Hl.
  induction Hrs as [|r rs Hr _ IH]; intros l Hl; [done|].
  simpl. by apply IH, append_if_new_link_ok.
Qed.

Lemma dummy_records_link_ok : Forall link_ok dummy_records.
Proof.
  unfold dummy_records. repeat apply Forall_cons_2; [..|apply Forall_nil_2].
  all: split; [done|]; apply unquoted_avoids; by apply (bool_decide_unpack _).
Qed.

Lemma session_step_link_ok (s : session) (c : click) :
  Forall link_ok (records s) → Forall link_ok (records (session_step s c)).
Proof.
  intros Hs. destruct c as [j co jid cid nr| |i]; cbn [session_step].
  - unfold on_add. destruct (_ && _); [|done]. simpl.
    apply append_if_new_link_ok; [done|].
    split; [apply build_link_nonempty|apply build_link_unquoted].
  - apply (foldl_append_if_new_link_ok _ _ Hs dummy_records_link_ok).
  - unfold on_delete. destruct s as [[|r l]|]; try done.
    unfold delete_record. case_decide; [|done]. simpl.
    by apply Forall_delete.
Qed.

Lemma session_run_link_ok (clicks : list click) :
  Forall link_ok (records (session_run clicks)).
Proof.
  unfold session_run. generalize (Forall_nil_2 link_ok : Forall link_ok (records None)).
  generalize (None : session).
  induction clicks as [|c clicks IH]; intros s Hs; [done|].
  simpl. by apply IH, session_step_link_ok.
Qed.

(** Whatever the user clicked, the loop gets back from the Link column of
    the frame exactly the link of each record of the session: the branch of
    the loop for a row without URL is never taken on these rows. *)
Theorem session_links_read_back (clicks : list click) :
  (λ row, extract_url_from_html (Link row))
    <$> df_of_recorduri (records (session_run clicks))
  = (λ r, Some (Link r)) <$> records (session_run clicks).
Proof.
  pose proof (session_run_link_ok clicks) as Hok.
  induction Hok as [|r l [Hne Hq] _ IH]; [done|].
  unfold df_of_recorduri in *. rewrite !fmap_cons. f_equal; [|done].
  by apply extract_url_from_html_anchor.
Qed.
End link_facts.

(** ** Answers convert_coordinates cannot read *)

Section convert_errors.
Context {num : Type} `{Countable num} `{!PyFloat num} `{!Projection num}.

(** A non-empty object without the key "features" (the error document of the
    service is one): the first subscript raises KeyError. *)
Theorem convert_coordinates_missing_features (kv : list (string * json num)) :
  kv ≠ [] → dict_get "features" kv = None →
  convert_coordinates (JObj kv) = Raise KeyError.
Proof.
  intros Hkv Hf. unfold convert_coordinates.
  destruct kv as [|e kv]; [done|].
  change (truthy (JObj (e :: kv))) with true. cbn [getitem_key].
  by rewrite Hf.
Qed.

(** An answer whose list of features is empty (what the service returns for a
    number it does not know): the subscript [0] raises IndexError. *)
Theorem convert_coordinates_empty_features (kv : list (string * json num)) :
  dict_get "features" kv = Some (JArr []) →
  convert_coordinates (JObj kv) = Raise IndexError.
Proof.
  intros Hf. unfold convert_coordinates.
  destruct kv as [|e kv]; [done|].
  change (truthy (JObj (e :: kv))) with true. cbn [getitem_key].
  by rewrite Hf.
Qed.

Lemma for_each_app_raise {A B} (f : A → result B) l1 x l2 ys e :
  for_each f l1 = Ok ys → f x = Raise e → for_each f (l1 ++ x :: l2) = Raise e.
Proof.
  revert ys. induction l1 as [|a l1 IH]; intros ys; simpl.
  - intros _ ->. done.
  - destruct (f a) as [b|]; [|done]. cbn [mbind result_bind].
    destruct (for_each f l1) as [ys'|] eqn:Hl; [|done]. intros _ Hx.
    by rewrite (IH _ eq_refl Hx).
Qed.

Lemma rings_at_truthy (j rings : json num) : rings_at j rings → truthy j = true.
Proof.
  intros (features & _ & _ & Hf & _).
  destruct j as [| | | | |kv]; try discriminate.
  destruct kv; [discriminate|done].
Qed.

(** A point that is not a pair, a point with a height for one, after rings
    and points that are pairs of numbers: the unpacking [for x, y in ring]
    raises ValueError and no vertex list is returned. *)
Theorem convert_coordinates_point_arity (j : json num)
    (rings : list (list (num * num))) (points : list (num * num))
    (coordinates : list (json num)) (more_points more_rings : list (json num)) :
  rings_at j
    (JArr ((ring_json <$> rings)
           ++ JArr ((point_json <$> points) ++ JArr coordinates :: more_points)
           :: more_rings)) →
  length coordinates ≠ 2%nat →
  convert_coordinates j = Raise ValueError.
Proof.
  intros Hj Hlen. unfold convert_coordinates.
  rewrite (rings_at_truthy _ _ Hj).
  destruct Hj as (features & feature & geometry & H1 & H2 & H3 & H4).
  bind_ok H1. bind_ok H2. bind_ok H3. bind_ok H4.
  cbn [py_iter mbind result_bind].
  rewrite (for_each_app_raise _ _ _ _ _ ValueError (convert_rings_ring_json rings));
    [done|].
  unfold convert_ring. cbn [py_iter mbind result_bind].
  pose proof (convert_ring_ring_json points) as Hpts.
  unfold convert_ring, ring_json in Hpts. cbn [py_iter mbind result_bind] in Hpts.
  apply (for_each_app_raise _ _ _ _ _ ValueError Hpts).
  unfold unpack2. cbn [py_iter mbind result_bind].
  by destruct coordinates as [|? [|? [|? ?]]].
Qed.
End convert_errors.

Section convert_errors_sample.
Import Sample.

Lemma convert_coordinates_missing_features_witness :
  convert_coordinates (JObj [("error", JObj [("code", JNum 400)])] : json Z)
  = Raise KeyError.
Proof.
  exact (convert_coordinates_missing_features [("error", JObj [("code", JNum 400)])]
           ltac:(discriminate) eq_refl).
Defined.

Lemma convert_coordinates_empty_features_witness :
  convert_coordinates (JObj [("displayFieldName", JStr ""); ("features", JArr [])] : json Z)
  = Raise IndexError.
Proof.
  exact (convert_coordinates_empty_features
           [("displayFieldName", JStr ""); ("features", JArr [])] eq_refl).
Defined.

Lemma convert_coordinates_point_arity_witness :
  convert_coordinates
    (JObj [("features", JArr [JObj [("geometry", JObj [("rings",
       JArr [JArr [JArr [JNum 500000; JNum 300000];
                   JArr [JNum 500010; JNum 300000; JNum 12]]])])]])] : json Z)
  = Raise ValueError.
Proof.
  refine (convert_coordinates_point_arity _ [] [(500000, 300000)]
            [JNum 500010; JNum 300000; JNum 12] [] [] _ ltac:(discriminate)).
  unfold rings_at. eauto 10.
Defined.
End convert_errors_sample.

(** ** What a batch keeps *)

Section batch_invariants.
Context {num : Type} `{Countable num} `{!PyFloat num} `{!Projection num}
  `{!Network num}.
Implicit Types (row : lookup) (rows : list lookup) (seen : gset (num * num))
  (o : out_record (num:=num)) (outs : list (out_record (num:=num))).

Lemma process_row_cases row seen o seen' :
  process_row row seen = Ok (o, seen') →
  (o = no_data ∧ seen' = seen
   ∧ ∀ vs clat clon, row_transform row ≠ Ok (Some vs, clat, clon))
  ∨ ∃ vs clat clon,
      row_transform row = Ok (Some vs, clat, clon)
      ∧ o = {| County := Some (Judet row); Local_UAT := Some (Comuna row);
               Cadastral_number := Some (Numar_Carte_Funciara row);
               Converted_Coordinates := Some (collect vs seen).1;
               Central_Lat := clat; Central_Lon := clon |}
      ∧ seen' = (collect vs seen).2.
Proof.
  rewrite process_row_transform.
  destruct (row_transform row) as [[[[vs|] clat] clon]|e] eqn:Ht; [| |done].
  - intros [= <- <-]. right. eauto 10.
  - intros [= <- <-]. left. done.
Qed.

(** One record per row, in the order of the rows: the six lists of the loop
    stay aligned, and a record either is the all-None record or carries the
    county, the UAT and the number of its own row. *)
Theorem process_rows_aligned rows seen outs seen' :
  process_rows rows seen = Ok (outs, seen') → Forall2 record_of_row rows outs.
Proof.
  revert seen outs seen'.
  induction rows as [|row rows IH]; intros seen outs seen'; simpl.
  - intros [= <- _]. constructor.
  - destruct (process_row row seen) as [[o s]|] eqn:Hrow; [|done].
    cbn [mbind result_bind].
    destruct (process_rows rows s) as [[os s']|] eqn:Hrows; [|done].
    intros [= <- _]. constructor; [|by eapply IH].
    apply process_row_cases in Hrow as [(-> & _)|(vs & clat & clon & Ht & -> & _)].
    + by left.
    + right. destruct (row_transform_Some _ _ _ _ Ht) as [-> ->]. simpl. eauto 10.
Qed.

Lemma process_row_kept row seen o seen' :
  process_row row seen = Ok (o, seen') →
  (∀ c, c ∈ kept_of o → c ∉ seen)
  ∧ (∀ c, c ∈ seen' ↔ c ∈ seen ∨ c ∈ kept_of o)
  ∧ (∀ c, c ∈ seen' ↔
       c ∈ seen ∨ ∃ vs clat clon,
         row_transform row = Ok (Some vs, clat, clon) ∧ c ∈ vs).
Proof.
  intros [(-> & -> & Hno)|(vs & clat & clon & Ht & -> & ->)]%process_row_cases.
  - unfold kept_of. simpl. split; [by intros c ?%elem_of_nil|]. split.
    + intros c. split; [by left|]. by intros [?|?%elem_of_nil].
    + intros c. split; [by left|]. intros [?|(vs & ? & ? & Ht & _)]; [done|].
      by destruct (Hno _ _ _ Ht).
  - unfold kept_of. simpl. split; [|split].
    + intros c. rewrite list_elem_of_filter. tauto.
    + intros c. rewrite elem_of_union, elem_of_list_to_set. done.
    + intros c. rewrite elem_of_union, elem_of_list_to_set, list_elem_of_filter.
      split.
      * intros [?|[_ ?]]; [by left|]. right. eauto 10.
      * intros [?|(vs' & ? & ? & Ht' & Hc)]; [by left|].
        rewrite Ht in Ht'. injection Ht' as <- _ _.
        destruct (decide (c ∈ seen)); [by left|by right].
Qed.

(** No vertex is kept twice across a batch: what a record keeps was not in
    the set before the batch, and is kept by no later record. *)
Theorem process_rows_kept_once rows seen outs seen' :
  process_rows rows seen = Ok (outs, seen') →
  (∀ o c, o ∈ outs → c ∈ kept_of o → c ∉ seen)
  ∧ ∀ i j oi oj c,
      (i < j)%nat → outs !! i = Some oi → outs !! j = Some oj →
      c ∈ kept_of oi → c ∉ kept_of oj.
Proof.
  revert seen outs seen'.
  induction rows as [|row rows IH]; intros seen outs seen'; simpl.
  - intros [= <- _]. split; [by intros ?? ?%elem_of_nil|]. by intros [|?] [|?].
  - destruct (process_row row seen) as [[o s]|] eqn:Hrow; [|done].
    cbn [mbind result_bind].
    destruct (process_rows rows s) as [[os s']|] eqn:Hrows; [|done].
    intros [= <- _].
    destruct (process_row_kept _ _ _ _ Hrow) as (Hfresh & Hs & _).
    destruct (IH _ _ _ Hrows) as [IH1 IH2]. split.
    + intros o' c [->|Ho']%elem_of_cons Hc; [by apply Hfresh|].
      intros Hseen. apply (IH1 o' c Ho' Hc), Hs. by left.
    + intros i j oi oj c Hij Hi Hj Hci.
      destruct j as [|j]; [lia|]. destruct i as [|i]; simpl in *.
      * injection Hi as <-. intros Hcj.
        apply (IH1 oj c); [by eapply list_elem_of_lookup_2|done|].
        apply Hs. by right.
      * apply (IH2 i j oi oj c); [lia|done..].
Qed.

(** The set of seen vertices after a batch holds what it held before and
    every vertex of every row's transform, and nothing else; each of the new
    ones is in the kept list of a record: the collector loses no vertex. *)
Theorem process_rows_seen rows seen outs seen' :
  process_rows rows seen = Ok (outs, seen') →
  ∀ c,
    (c ∈ seen' ↔ c ∈ seen ∨ ∃ o, o ∈ outs ∧ c ∈ kept_of o)
    ∧ (c ∈ seen' ↔
         c ∈ seen ∨ ∃ row vs clat clon,
           row ∈ rows ∧ row_transform row = Ok (Some vs, clat, clon) ∧ c ∈ vs).
Proof.
  revert seen outs seen'.
  induction rows as [|row rows IH]; intros seen outs seen'; simpl.
  - intros [= <- <-] c. split.
    + split; [by left|]. by intros [?|(? & ?%elem_of_nil & _)].
    + split; [by left|]. by intros [?|(? & ? & ? & ? & ?%elem_of_nil & _)].
  - destruct (process_row row seen) as [[o s]|] eqn:Hrow; [|done].
    cbn [mbind result_bind].
    destruct (process_rows rows s) as [[os s']|] eqn:Hrows; [|done].
    intros [= <- <-] c.
    destruct (process_row_kept _ _ _ _ Hrow) as (_ & Hs1 & Hs2).
    destruct (IH _ _ _ Hrows c) as [IH1 IH2]. split.
    + rewrite IH1, Hs1. split.
      * intros [[?|?]|(o' & ? & ?)]; [by left|right..].
        -- exists o. split; [left|done].
        -- exists o'. split; [by right|done].
      * intros [?|(o' & [->|?]%elem_of_cons & ?)]; [by left; left|by left; right|].
        right. eauto.
    + rewrite IH2, Hs2. split.
      * intros [[?|(vs & clat & clon & ? & ?)]|(row' & vs & clat & clon & ? & ? & ?)];
          [by left|right..].
        -- exists row, vs, clat, clon. split; [left|done].
        -- exists row', vs, clat, clon. split; [by right|done].
      * intros [?|(row' & vs & clat & clon & [->|?]%elem_of_cons & ? & ?)];
          [by left; left| |].
        -- left. right. eauto.
        -- right. eauto 10.
Qed.
End batch_invariants.

Section batch_invariants_sample.
Import Sample.

Lemma process_rows_aligned_witness :
  ∃ outs, Forall2 (record_of_row (num:=Z)) [row_square; row_missing; row_triangle] outs.
Proof.
  eexists.
  exact (process_rows_aligned [row_square; row_missing; row_triangle] ∅ _ _ eq_refl).
Defined.

Lemma process_rows_kept_once_witness :
  ∃ outs : list (out_record (num:=Z)),
    length outs = 2%nat
    ∧ ∀ i j oi oj c,
        (i < j)%nat → outs !! i = Some oi → outs !! j = Some oj →
        c ∈ kept_of oi → c ∉ kept_of oj.
Proof.
  eexists. split; [|
    exact (proj2 (process_rows_kept_once [row_square; row_triangle] ∅ _ _ eq_refl))].
  reflexivity.
Defined.

Lemma process_rows_seen_witness :
  ∃ seen' : gset (Z * Z),
    (10, 10) ∈ seen'
    ↔ (10, 10) ∈ (∅ : gset (Z * Z))
      ∨ ∃ row vs clat clon,
          row ∈ [row_square; row_triangle]
          ∧ row_transform row = Ok (Some vs, clat, clon) ∧ (10, 10) ∈ vs.
Proof.
  eexists.
  exact (proj2 (process_rows_seen [row_square; row_triangle] ∅ _ _ eq_refl (10, 10))).
Defined.
End batch_invariants_sample.

(** ** The table of create_output_dataframe *)

Section frame_more.
Context {num : Type} `{Countable num} `{!PyFloat num}.
Implicit Types (r : out_record (num:=num)) (df : list (out_record (num:=num)))
  (rows : list (vertex_row (num:=num))).

(** The function returns exactly on the frames whose first record has a
    vertex; on an empty frame and on a frame whose first record has none it
    raises, and ValueError is the only exception it raises. *)
Theorem create_output_dataframe_returns df :
  (is_Ok (create_output_dataframe df) ↔
     ∃ r0 p ps df', df = r0 :: df' ∧ Converted_Coordinates r0 = Some (p :: ps))
  ∧ ∀ e, create_output_dataframe df = Raise e → e = ValueError.
Proof.
  split.
  - split.
    + intros [rows Hrows]. destruct df as [|r0 df']; [done|].
      destruct (Converted_Coordinates r0) as [[|p ps]|] eqn:H0.
      * by rewrite create_output_dataframe_first_missing in Hrows by auto.
      * eauto 10.
      * by rewrite create_output_dataframe_first_missing in Hrows by auto.
    + intros (r0 & p & ps & df' & -> & H0).
      rewrite (create_output_dataframe_first_vertex _ _ _ _ H0). by eexists.
  - intros e. rewrite create_output_dataframe_cases.
    destruct (explode df) as [|[r' [c'|]] l]; by intros [= <-].
Qed.

Lemma kept_of_explode_cell r :
  length (explode_cell (Converted_Coordinates r)) = (length (kept_of r) `max` 1)%nat.
Proof.
  unfold kept_of. destruct (Converted_Coordinates r) as [[|p l]|]; simpl; [done| |done].
  rewrite length_fmap. lia.
Qed.

(** When the function returns, a record gives as many rows as it keeps
    vertices, and one row when it keeps none; the rows stand in the order of
    the records and each carries the county, the UAT, the number and the
    centroid of its record. *)
Theorem create_output_dataframe_rows df rows :
  create_output_dataframe df = Ok rows →
  length rows = sum_list ((λ r, length (kept_of r) `max` 1)%nat <$> df)
  ∧ (λ row, (row_County row, row_Local_UAT row, row_Cadastral_number row,
             row_Central_Lat row, row_Central_Lon row)) <$> rows
    = df ≫= λ r, replicate (length (kept_of r) `max` 1)%nat
                   (County r, Local_UAT r, Cadastral_number r,
                    Central_Lat r, Central_Lon r).
Proof.
  rewrite create_output_dataframe_cases.
  destruct (explode df) as [|[r' [c'|]] l]; [done| |done].
  intros [= <-]. clear. split.
  - induction df as [|r df IH]; [done|].
    rewrite bind_cons, length_app, IH, fmap_cons. simpl. f_equal.
    unfold record_rows. by rewrite length_fmap, kept_of_explode_cell.
  - induction df as [|r df IH]; [done|].
    rewrite !bind_cons, fmap_app, IH. f_equal.
    unfold record_rows. rewrite <-list_fmap_compose, <-kept_of_explode_cell.
    generalize (explode_cell (Converted_Coordinates r)).
    intros l. induction l as [|c l IHl]; [done|]. simpl. by f_equal.
Qed.

(** When every record keeps a vertex, the function returns, no row has a
    missing coordinate, and the columns Lat and Long hold, row by row, the
    first and the second component of the kept vertices of the records, in
    their order. *)
Theorem create_output_dataframe_all_kept df :
  df ≠ [] → Forall (λ r, kept_of r ≠ []) df →
  ∃ rows,
    create_output_dataframe df = Ok rows
    ∧ (λ row, (Lat row, Long row)) <$> rows
      = (λ c, (Some c.1, Some c.2)) <$> (df ≫= kept_of).
Proof.
  intros Hne Hall. destruct df as [|r0 df']; [done|].
  assert (∀ r, kept_of r ≠ [] →
    (λ row, (Lat row, Long row)) <$> record_rows r
    = (λ c, (Some c.1, Some c.2)) <$> kept_of r) as Hrec.
  { intros r. unfold kept_of, record_rows.
    destruct (Converted_Coordinates r) as [[|p l]|]; [done| |done]. intros _.
    cbn [default explode_cell]. rewrite <-!list_fmap_compose.
    by apply list_fmap_ext. }
  pose proof (Forall_inv Hall) as H0. unfold kept_of in H0.
  destruct (Converted_Coordinates r0) as [[|p ps]|] eqn:Hr0; [done| |done].
  exists ((r0 :: df') ≫= record_rows).
  split; [by eapply create_output_dataframe_first_vertex|].
  clear Hne H0 Hr0. induction Hall as [|r df Hr _ IH]; [done|].
  rewrite !bind_cons, !fmap_app, IH. f_equal. by apply Hrec.
Qed.
End frame_more.

Section frame_more_sample.
Import Sample.

Lemma create_output_dataframe_rows_witness :
  length [make_row two_vertices (Some 0) (Some 0);
          make_row two_vertices (Some 10) (Some 0);
          make_row (no_data (num:=Z)) None None] = 3%nat
  ∧ (λ row : vertex_row (num:=Z), (row_County row, row_Local_UAT row,
       row_Cadastral_number row, row_Central_Lat row, row_Central_Lon row))
      <$> [make_row two_vertices (Some 0) (Some 0);
           make_row two_vertices (Some 10) (Some 0);
           make_row no_data None None]
    = [(Some "Arges", Some "Ungheni", Some 1, Some 5, Some 0);
       (Some "Arges", Some "Ungheni", Some 1, Some 5, Some 0);
       (None, None, None, None, None)].
Proof.
  exact (create_output_dataframe_rows [two_vertices; no_data] _ eq_refl).
Defined.

Lemma create_output_dataframe_all_kept_witness :
  ∃ rows,
    create_output_dataframe [two_vertices] = Ok rows
    ∧ (λ row, (Lat row, Long row)) <$> rows = [(Some 0, Some 0); (Some 10, Some 0)].
Proof.
  refine (create_output_dataframe_all_kept [two_vertices] ltac:(discriminate) _).
  apply Forall_singleton. discriminate.
Defined.
End frame_more_sample.

(** ** display_map *)

Section display_facts.
Context {num : Type} `{Countable num} `{!PyFloat num}.
Implicit Types (r : out_record (num:=num)) (df : list (out_record (num:=num)))
  (rows : list (vertex_row (num:=num))) (n : Z).

Lemma filter_all {A} (P : A → Prop) `{!∀ x, Decision (P x)} (l : list A) :
  (∀ x, x ∈ l → P x) → filter P l = l.
Proof.
  induction l as [|x l IH]; intros Hl; [done|].
  rewrite filter_cons_True by (apply Hl; left).
  f_equal. apply IH. intros y Hy. apply Hl. by right.
Qed.

Lemma filter_none {A} (P : A → Prop) `{!∀ x, Decision (P x)} (l : list A) :
  (∀ x, x ∈ l → ¬P x) → filter P l = [].
Proof.
  induction l as [|x l IH]; intros Hl; [done|].
  rewrite filter_cons_False by (apply Hl; left).
  apply IH. intros y Hy. apply Hl. by right.
Qed.

Lemma record_rows_number r row :
  row ∈ record_rows r → row_Cadastral_number row = Cadastral_number r.
Proof. unfold record_rows. by intros (c & -> & _)%list_elem_of_fmap. Qed.

(** The rows with a given number are the rows of the records with it. *)
Lemma filter_cadastral_number_bind n df :
  filter_cadastral_number (Some n) (df ≫= record_rows)
  = filter (λ r, Cadastral_number r = Some n) df ≫= record_rows.
Proof.
  unfold filter_cadastral_number.
  induction df as [|r df IH]; [done|].
  rewrite bind_cons, filter_app, IH, filter_cons.
  case_decide as Hn.
  - rewrite bind_cons. f_equal. apply filter_all.
    intros row Hrow. split; [done|]. by rewrite (record_rows_number _ _ Hrow).
  - rewrite filter_none; [done|].
    intros row Hrow [_ Hrow']. by rewrite (record_rows_number _ _ Hrow) in Hrow'.
Qed.

Lemma for_each_app {A B} (f : A → result B) l1 l2 :
  for_each f (l1 ++ l2)
  = ys1 ← for_each f l1; ys2 ← for_each f l2; Ok (ys1 ++ ys2).
Proof.
  induction l1 as [|x l1 IH]; cbn [for_each app mbind result_bind].
  - by destruct (for_each f l2).
  - destruct (f x) as [y|e]; cbn [mbind result_bind]; [|done].
    rewrite IH. destruct (for_each f l1) as [ys1|e]; cbn [mbind result_bind]; [|done].
    by destruct (for_each f l2).
Qed.

(** folium accepts the locations that miss no value, as they are, and
    raises ValueError at the first that misses one. *)
Lemma for_each_folium_location (l : list (option num * option num)) :
  (∃ polygon, for_each folium_location l = Ok polygon
              ∧ l = (λ c, (Some c.1, Some c.2)) <$> polygon)
  ∨ (for_each folium_location l = Raise ValueError
     ∧ ∃ location, location ∈ l ∧ (location.1 = None ∨ location.2 = None)).
Proof.
  induction l as [|[[a|] [b|]] l IH]; cbn [for_each folium_location mbind result_bind].
  - left. by exists [].
  - destruct IH as [(polygon & -> & ->)|(-> & location & Hin & Hnone)].
    + left. by exists ((a, b) :: polygon).
    + right. split; [done|]. exists location. split; [by right|done].
  - right. split; [done|]. exists (Some a, None). split; [by left|by right].
  - right. split; [done|]. exists (None, Some b). split; [by left|by left].
  - right. split; [done|]. exists (None, None). split; [by left|by left].
Qed.

Lemma for_each_polygon_of df :
  for_each folium_location (df ≫= polygon_of) =
    if decide (Forall (λ r, kept_of r ≠ []) df)
    then Ok ((λ c, (lat c, lon c)) <$> (df ≫= kept_of))
    else Raise ValueError.
Proof.
  induction df as [|r df IH].
  { by rewrite decide_True by constructor. }
  rewrite !bind_cons, for_each_app, IH. clear IH.
  assert (kept_of r = default [] (Converted_Coordinates r)) as Hk by done.
  unfold polygon_of.
  destruct (Converted_Coordinates r) as [[|p ps]|]; cbn [explode_cell default] in *.
  - rewrite (decide_False (P:=Forall _ (r :: df))); [by simpl|].
    by intros [? _]%Forall_cons.
  - assert (for_each folium_location
              ((λ c : option (num * num), (snd <$> c, fst <$> c)) <$> (Some <$> p :: ps))
            = Ok ((λ c, (lat c, lon c)) <$> p :: ps)) as ->.
    { generalize (p :: ps). intros l. induction l as [|c l IHl]; [done|].
      rewrite !fmap_cons. cbn [for_each folium_location fmap option_fmap option_map
        mbind result_bind]. by rewrite IHl. }
    cbn [mbind result_bind]. rewrite Hk.
    destruct (decide (Forall _ df)) as [Hdf|Hdf].
    + rewrite (decide_True (P:=Forall _ (r :: df))); [by rewrite fmap_app|].
      apply Forall_cons. split; [|done]. by rewrite Hk.
    + rewrite (decide_False (P:=Forall _ (r :: df))); [done|].
      by intros [_ ?]%Forall_cons.
  - rewrite (decide_False (P:=Forall _ (r :: df))); [by simpl|].
    by intros [? _]%Forall_cons.
Qed.

Lemma display_map_bind n df :
  display_map (df ≫= record_rows) (Some n) =
    match filter (λ r, Cadastral_number r = Some n) df with
    | [] => (None, Ok NoDataMessage)
    | r0 :: selected =>
        (Some (maps_prefix +:+ astype_str (Central_Lon r0) +:+ ","
                 +:+ astype_str (Central_Lat r0)),
         match Central_Lon r0, Central_Lat r0 with
         | Some clon, Some clat =>
             if decide (Forall (λ r, kept_of r ≠ []) (r0 :: selected))
             then Ok (MapShown (clon, clat)
                        ((λ c, (lat c, lon c)) <$> ((r0 :: selected) ≫= kept_of)))
             else Raise ValueError
         | _, _ => Raise ValueError
         end)
    end.
Proof.
  unfold display_map. rewrite filter_cadastral_number_bind.
  destruct (filter _ df) as [|r0 selected]; [done|].
  assert (∀ l : list (out_record (num:=num)),
    (λ row, (Long row, Lat row)) <$> (l ≫= record_rows) = l ≫= polygon_of) as Hpoly.
  { induction l as [|r l IH]; [done|].
    rewrite !bind_cons, fmap_app, IH. f_equal.
    unfold record_rows, polygon_of. by rewrite <-list_fmap_compose. }
  assert (∃ row0 rest, (r0 :: selected) ≫= record_rows = row0 :: rest
    ∧ row_Central_Lon row0 = Central_Lon r0
    ∧ row_Central_Lat row0 = Central_Lat r0
    ∧ Google_Maps_Link_Central_Point row0
      = maps_prefix +:+ astype_str (Central_Lon r0) +:+ ","
          +:+ astype_str (Central_Lat r0)) as (row0 & rest & Hrows & Hlon & Hlat & Hlink).
  { rewrite bind_cons. unfold record_rows at 1.
    destruct (explode_cell (Converted_Coordinates r0)) as [|c cs] eqn:Hc.
    - by destruct (Converted_Coordinates r0) as [[|p l]|].
    - rewrite fmap_cons. by eexists _, _. }
  rewrite Hrows, Hlon, Hlat, Hlink, <-Hrows, Hpoly, for_each_polygon_of.
  destruct (Central_Lon r0), (Central_Lat r0); [|done..].
  cbn [folium_location mbind result_bind]. by case_decide.
Qed.

(** The selection is by number alone. With a record of the selected number
    in the table, the link of the first of them is written; then the map
    shows, as one polygon, the vertices of every record with that number,
    whatever its county and UAT, around the centroid of the first of them,
    provided that this centroid is there and that each of these records keeps
    a vertex; otherwise folium raises ValueError. A number that no record has
    gives the message of the else branch. *)
Theorem display_map_selection df rows n :
  create_output_dataframe df = Ok rows →
  display_map rows (Some n) =
    match filter (λ r, Cadastral_number r = Some n) df with
    | [] => (None, Ok NoDataMessage)
    | r0 :: selected =>
        (Some (maps_prefix +:+ astype_str (Central_Lon r0) +:+ ","
                 +:+ astype_str (Central_Lat r0)),
         match Central_Lon r0, Central_Lat r0 with
         | Some clon, Some clat =>
             if decide (Forall (λ r, kept_of r ≠ []) (r0 :: selected))
             then Ok (MapShown (clon, clat)
                        ((λ c, (lat c, lon c)) <$> ((r0 :: selected) ≫= kept_of)))
             else Raise ValueError
         | _, _ => Raise ValueError
         end)
    end.
Proof.
  rewrite create_output_dataframe_cases.
  destruct (explode df) as [|[r' [c'|]] l]; [done| |done].
  intros [= <-]. apply display_map_bind.
Qed.

(** For the one record with the selected number, keeping at least one
    vertex, folium is given latitude before longitude throughout: the map and
    the marker at (Central_Lon, Central_Lat), which are the mean latitude and
    the mean longitude, and the polygon through the kept vertices, each as
    (latitude, longitude); the link written is the centroid link of the
    record. Without one of the two centroid values folium raises
    ValueError. *)
Theorem display_map_axes df rows n r :
  create_output_dataframe df = Ok rows →
  filter (λ r, Cadastral_number r = Some n) df = [r] →
  kept_of r ≠ [] →
  display_map rows (Some n) =
    (Some (maps_prefix +:+ astype_str (Central_Lon r) +:+ ","
             +:+ astype_str (Central_Lat r)),
     match Central_Lon r, Central_Lat r with
     | Some central_lon, Some central_lat =>
         Ok (MapShown (central_lon, central_lat)
               ((λ c, (lat c, lon c)) <$> kept_of r))
     | _, _ => Raise ValueError
     end).
Proof.
  rewrite create_output_dataframe_cases.
  destruct (explode df) as [|[r' [c'|]] l]; [done| |done].
  intros [= <-] Hsel Hkept. rewrite display_map_bind, Hsel.
  rewrite bind_cons. change ([] ≫= kept_of) with (@nil (num * num)).
  rewrite app_nil_r.
  destruct (Central_Lon r), (Central_Lat r); [|done..].
  by rewrite decide_True by (by repeat constructor).
Qed.

Lemma elem_of_py_unique {A} `{EqDecision A} (l : list A) x :
  x ∈ py_unique l ↔ x ∈ l.
Proof.
  induction l as [|a l IH]; [done|]. cbn [py_unique].
  rewrite !elem_of_cons, list_elem_of_filter, IH.
  destruct (decide (x = a)); tauto.
Qed.

Lemma NoDup_py_unique {A} `{EqDecision A} (l : list A) : NoDup (py_unique l).
Proof.
  induction l as [|a l IH]; cbn [py_unique]; [constructor|].
  apply NoDup_cons. split.
  - rewrite list_elem_of_filter. tauto.
  - by apply NoDup_filter.
Qed.

(** The radio button offers every value of the number column once. For a
    number it offers there are rows: the centroid link of the first of them is
    written, and then the map is shown, at the centroid of that row and
    through the (Long, Lat) of all of them, when none of these values is
    missing; when one is, folium raises ValueError. A number that is not
    offered, and the missing value, which the rows of the all-None records
    bring among the options, give the message of the else branch. *)
Theorem radio_options_shown rows :
  NoDup (radio_options rows)
  ∧ (∀ x, x ∈ radio_options rows ↔ x ∈ row_Cadastral_number <$> rows)
  ∧ (∀ n, Some n ∈ radio_options rows →
      ∃ row0 selected,
        filter_cadastral_number (Some n) rows = row0 :: selected
        ∧ (display_map rows (Some n)).1
          = Some (Google_Maps_Link_Central_Point row0)
        ∧ ((∃ central_lon central_lat polygon,
              row_Central_Lon row0 = Some central_lon
              ∧ row_Central_Lat row0 = Some central_lat
              ∧ (λ row, (Long row, Lat row)) <$> row0 :: selected
                = (λ c, (Some c.1, Some c.2)) <$> polygon
              ∧ (display_map rows (Some n)).2
                = Ok (MapShown (central_lon, central_lat) polygon))
           ∨ ((row_Central_Lon row0 = None ∨ row_Central_Lat row0 = None
               ∨ ∃ row, row ∈ row0 :: selected ∧ (Long row = None ∨ Lat row = None))
              ∧ (display_map rows (Some n)).2 = Raise ValueError)))
  ∧ (∀ n, Some n ∉ radio_options rows →
      display_map rows (Some n) = (None, Ok NoDataMessage))
  ∧ display_map rows None = (None, Ok NoDataMessage).
Proof.
  split; [apply NoDup_py_unique|]. split; [intros x; apply elem_of_py_unique|].
  split; [|split].
  - intros n (row & Hn & Hrow)%elem_of_py_unique%list_elem_of_fmap.
    unfold display_map.
    destruct (filter_cadastral_number (Some n) rows) as [|row0 selected] eqn:Hf.
    { assert (row ∈ filter_cadastral_number (Some n) rows) as Hin.
      { unfold filter_cadastral_number. apply list_elem_of_filter. eauto. }
      rewrite Hf in Hin. by apply elem_of_nil in Hin. }
    exists row0, selected. split; [done|]. split; [done|]. cbn [snd].
    destruct (row_Central_Lon row0) as [central_lon|];
      [|right; cbn [folium_location mbind result_bind]; tauto].
    destruct (row_Central_Lat row0) as [central_lat|];
      [|right; cbn [folium_location mbind result_bind]; tauto].
    cbn [folium_location mbind result_bind].
    destruct (for_each_folium_location
                ((λ row, (Long row, Lat row)) <$> row0 :: selected))
      as [(polygon & -> & Hpoly)|(-> & location & Hin & Hnone)].
    + left. by exists central_lon, central_lat, polygon.
    + right. split; [|done]. right. right.
      apply list_elem_of_fmap in Hin as (row' & -> & Hrow'). by exists row'.
  - intros n Hn. unfold display_map, filter_cadastral_number.
    rewrite filter_none; [done|]. intros row Hrow [_ Hrow'].
    apply Hn, elem_of_py_unique, list_elem_of_fmap. eauto.
  - unfold display_map, filter_cadastral_number.
    rewrite filter_none; [done|]. intros row _ [[? [=]] _].
Qed.
End display_facts.

Section display_sample.
Import Sample.

Lemma display_map_selection_witness :
  display_map [make_row two_vertices (Some 0) (Some 0);
               make_row two_vertices (Some 10) (Some 0);
               make_row same_number (Some 20) (Some 30)] (Some 1)
  = (Some "https://maps.google.com/?q=0,5",
     Ok (MapShown (0, 5) [(0, 0); (0, 10); (30, 20)]))
  ∧ display_map [make_row two_vertices (Some 0) (Some 0);
                 make_row two_vertices (Some 10) (Some 0);
                 make_row all_suppressed None None] (Some 7)
    = (Some "https://maps.google.com/?q=3,4", Raise ValueError).
Proof.
  split.
  - exact (display_map_selection [two_vertices; same_number] _ 1 eq_refl).
  - exact (display_map_selection [two_vertices; all_suppressed] _ 7 eq_refl).
Defined.

Lemma display_map_axes_witness :
  display_map [make_row two_vertices (Some 0) (Some 0);
               make_row two_vertices (Some 10) (Some 0);
               make_row no_data None None] (Some 1)
  = (Some "https://maps.google.com/?q=0,5",
     Ok (MapShown (0, 5) [(0, 0); (0, 10)])).
Proof.
  exact (display_map_axes [two_vertices; no_data] _ 1 two_vertices
           eq_refl eq_refl ltac:(discriminate)).
Defined.
End display_sample.

(** ** The buttons of the record list *)

Section store_more.
Implicit Types (l : list lookup) (r : lookup) (s : session).

Lemma elem_of_append_if_new l r x : x ∈ append_if_new l r ↔ x ∈ l ∨ x = r.
Proof.
  unfold append_if_new. case_decide as Hr.
  - split; [by left|]. by intros [?| ->].
  - rewrite elem_of_app, list_elem_of_singleton. done.
Qed.

Lemma append_if_new_prefix l r : l `prefix_of` append_if_new l r.
Proof. unfold append_if_new. case_decide; [done|]. by apply prefix_app_r. Qed.

(** With all three fields filled in, a click on Add leaves the list with the
    record of the form in it, the records that were there before it, in their
    order and at their positions, and at most one record more. *)
Theorem on_add_filled (j c : string) (jid cid nr : Z) s :
  j ≠ "" → c ≠ "" → nr ≠ 0 →
  let s' := on_add j c jid cid nr s in
  {| Judet := j; Judet_ID := jid; Comuna := c; Comuna_ID := cid;
     Numar_Carte_Funciara := nr; Link := build_link jid cid nr |} ∈ records s'
  ∧ records s `prefix_of` records s'
  ∧ (length (records s') ≤ S (length (records s)))%nat.
Proof.
  intros Hj Hc Hnr. unfold on_add.
  rewrite !bool_decide_eq_true_2 by done. cbn [andb records default].
  split; [apply elem_of_append_if_new; by right|].
  split; [apply append_if_new_prefix|].
  unfold append_if_new, records. simpl.
  case_decide; [lia|]. rewrite length_app. simpl. lia.
Qed.

(** With the county or the UAT empty, or with the number 0, a click on Add
    changes nothing: the number 0 cannot be added. *)
Theorem on_add_unfilled (j c : string) (jid cid nr : Z) s :
  j = "" ∨ c = "" ∨ nr = 0 → on_add j c jid cid nr s = s.
Proof.
  intros Hempty. unfold on_add.
  destruct (bool_decide (j ≠ "")) eqn:Hj; [|done].
  destruct (bool_decide (c ≠ "")) eqn:Hc; [|done].
  destruct (bool_decide (nr ≠ 0)) eqn:Hnr; [|done].
  apply bool_decide_eq_true in Hj, Hc, Hnr. tauto.
Qed.

(** A second click on Add with the same form changes nothing. *)
Theorem on_add_twice (j c : string) (jid cid nr : Z) s :
  on_add j c jid cid nr (on_add j c jid cid nr s) = on_add j c jid cid nr s.
Proof.
  unfold on_add. destruct (_ && _); [|done]. cbn [default].
  f_equal. apply append_if_new_present, elem_of_append_if_new. by right.
Qed.

Lemma foldl_append_if_new_elem l rs x :
  x ∈ foldl append_if_new l rs ↔ x ∈ l ∨ x ∈ rs.
Proof.
  revert l. induction rs as [|r rs IH]; intros l; simpl.
  - split; [by left|]. by intros [?|?%elem_of_nil].
  - rewrite IH, elem_of_append_if_new, elem_of_cons. tauto.
Qed.

Lemma foldl_append_if_new_prefix l rs : l `prefix_of` foldl append_if_new l rs.
Proof.
  revert l. induction rs as [|r rs IH]; intros l; simpl; [done|].
  etrans; [apply append_if_new_prefix|apply IH].
Qed.

Lemma foldl_append_if_new_present l rs :
  (∀ r, r ∈ rs → r ∈ l) → foldl append_if_new l rs = l.
Proof.
  induction rs as [|r rs IH]; intros Hrs; simpl; [done|].
  rewrite append_if_new_present by (apply Hrs; left).
  apply IH. intros r' Hr'. apply Hrs. by right.
Qed.

(** After a click on Add Dummy Data both dummy records are in the list, the
    records that were there stay where they were, and a second click changes
    nothing. *)
Theorem on_add_dummy_twice s :
  (∀ r, r ∈ dummy_records → r ∈ records (on_add_dummy s))
  ∧ records s `prefix_of` records (on_add_dummy s)
  ∧ on_add_dummy (on_add_dummy s) = on_add_dummy s.
Proof.
  unfold on_add_dummy. cbn [records default]. split; [|split].
  - intros r Hr. apply foldl_append_if_new_elem. by right.
  - apply foldl_append_if_new_prefix.
  - f_equal. apply foldl_append_if_new_present.
    intros r Hr. apply foldl_append_if_new_elem. by right.
Qed.

Lemma records_on_delete (i : nat) s :
  (i < length (records s))%nat → records (on_delete i s) = delete i (records s).
Proof.
  unfold on_delete, delete_record.
  destruct s as [[|r0 l]|]; simpl; [lia| |lia]. intros Hi.
  by case_decide.
Qed.

Lemma on_delete_past_end (i : nat) s :
  (length (records s) ≤ i)%nat → on_delete i s = s.
Proof.
  unfold on_delete, delete_record.
  destruct s as [[|r0 l]|]; simpl; [done| |done]. intros Hi.
  case_decide; [lia|done].
Qed.

Lemma NoDup_delete_lookup l (i : nat) r :
  NoDup l → l !! i = Some r →
  (r ∉ delete i l) ∧ ∀ r', r' ≠ r → r' ∈ delete i l ↔ r' ∈ l.
Proof.
  intros Hnd Hi. pose proof (proj1 (NoDup_alt l) Hnd) as Hinj. split.
  - intros [k Hk]%list_elem_of_lookup_1.
    destruct (decide (k < i)%nat).
    + rewrite list_lookup_delete_lt in Hk by done.
      specialize (Hinj _ _ _ Hk Hi). lia.
    + rewrite list_lookup_delete_ge in Hk by lia.
      specialize (Hinj _ _ _ Hk Hi). lia.
  - intros r' Hne. split.
    + intros Hin. eapply elem_of_sublist; [done|apply sublist_delete].
    + intros (k & Hk)%list_elem_of_lookup_1.
      assert (k ≠ i) by (intros ->; congruence).
      destruct (decide (k < i)%nat).
      * apply (list_elem_of_lookup_2 _ k). by rewrite list_lookup_delete_lt.
      * apply (list_elem_of_lookup_2 _ (pred k)).
        rewrite list_lookup_delete_ge by lia.
        by replace (S (pred k)) with k by lia.
Qed.

(** Delete on the i-th record of a session the clicks can reach: that record
    is gone from the list, not only one copy of it, every other record
    stays, and the list is one shorter. An index past the end changes
    nothing. *)
Theorem click_delete_removes (clicks : list click) (i : nat) :
  let s := session_run clicks in
  let s' := session_step s (ClickDelete i) in
  match records s !! i with
  | Some r =>
      (r ∉ records s')
      ∧ (∀ r', r' ≠ r → r' ∈ records s' ↔ r' ∈ records s)
      ∧ S (length (records s')) = length (records s)
  | None => s' = s
  end.
Proof.
  intros s s'.
  pose proof (foldl_session_step_NoDup None clicks (NoDup_nil_2)) as Hnd.
  fold (session_run clicks) in Hnd. fold s in Hnd.
  unfold s'. cbn [session_step].
  destruct (records s !! i) as [r|] eqn:Hi.
  - pose proof (lookup_lt_Some _ _ _ Hi) as Hlt.
    rewrite records_on_delete by done.
    destruct (NoDup_delete_lookup _ _ _ Hnd Hi) as [Hgone Hrest].
    split; [done|]. split; [done|].
    rewrite length_delete by eauto. lia.
  - apply on_delete_past_end. by apply lookup_ge_None.
Qed.
End store_more.

(** ** The reference table and the link of a request *)

Section request_link_facts.
Implicit Types (data : list locality) (s t : string) (c : Ascii.ascii).

(** For a county among the options of the first select box and a UAT among
    the options of the second, both identifiers are found and the link is
    built from them: the county identifier is that of a row of the county,
    the UAT identifier that of a row of that UAT in that county. *)
Theorem request_link_selected data (selected_judet selected_comuna : string) (nr : Z) :
  selected_judet ∈ judete data →
  selected_comuna ∈ loc_Comuna <$> get_comune_by_judet data selected_judet →
  ∃ judet_id comuna_id,
    request_link data selected_judet selected_comuna nr
      = Ok (judet_id, comuna_id, build_link judet_id comuna_id nr)
    ∧ (∃ l, l ∈ data ∧ loc_Judet l = selected_judet ∧ loc_Judet_ID l = judet_id)
    ∧ (∃ l, l ∈ data ∧ loc_Judet l = selected_judet
            ∧ loc_Comuna l = selected_comuna ∧ loc_Comuna_ID l = comuna_id).
Proof.
  intros (lj & Hlj & Hj)%elem_of_py_unique%list_elem_of_fmap
         (lc & Hlc & Hc)%list_elem_of_fmap.
  unfold request_link, get_comune_by_judet in *.
  destruct (filter (λ l, loc_Judet l = selected_judet) data) as [|l1 ls1] eqn:H1.
  { by apply elem_of_nil in Hc. }
  assert (l1 ∈ filter (λ l, loc_Judet l = selected_judet) data) as Hl1
    by (rewrite H1; left).
  apply list_elem_of_filter in Hl1 as [Hl1j Hl1].
  destruct (filter (λ l, loc_Comuna l = selected_comuna) (l1 :: ls1))
    as [|l2 ls2] eqn:H2.
  { assert (lc ∈ filter (λ l, loc_Comuna l = selected_comuna) (l1 :: ls1)) as Hin
      by (apply list_elem_of_filter; auto).
    rewrite H2 in Hin. by apply elem_of_nil in Hin. }
  assert (l2 ∈ filter (λ l, loc_Comuna l = selected_comuna) (l1 :: ls1)) as Hl2
    by (rewrite H2; left).
  apply list_elem_of_filter in Hl2 as [Hl2c Hl2].
  rewrite <-H1 in Hl2. apply list_elem_of_filter in Hl2 as [Hl2j Hl2].
  exists (loc_Judet_ID l1), (loc_Comuna_ID l2). split; [done|]. split.
  - by exists l1.
  - by exists l2.
Qed.

(** For a county that no row of the table has (an empty table, for one) the
    look-up of its identifier raises IndexError before any link is built. *)
Theorem request_link_unknown data (selected_judet selected_comuna : string) (nr : Z) :
  selected_judet ∉ loc_Judet <$> data →
  request_link data selected_judet selected_comuna nr = Raise IndexError.
Proof.
  intros Hj. unfold request_link.
  rewrite (filter_none (λ l, loc_Judet l = selected_judet) data); [done|].
  intros l Hl <-. apply Hj. by apply list_elem_of_fmap_2.
Qed.

Lemma append_inv_head s t t' : s +:+ t = s +:+ t' → t = t'.
Proof.
  induction s as [|c s IH]; [done|]. rewrite !append_cons. intros [= ?]. auto.
Qed.

(** Two texts without [c], each followed by [c]: equal wholes have equal
    parts. *)
Lemma append_inv_avoids c s s' t t' :
  avoids c s → avoids c s' →
  s +:+ String c t = s' +:+ String c t' → s = s' ∧ t = t'.
Proof.
  revert s'. induction s as [|a s IH]; intros [|a' s']; simpl.
  - by intros _ _ [= ->].
  - intros _ [Ha' _] [= <- _]. done.
  - intros [Ha _] _ [= -> _]. done.
  - intros [_ Hs] [_ Hs']. rewrite !append_cons. intros [= -> Heq].
    destruct (IH _ Hs Hs' Heq) as [-> ->]. done.
Qed.

(** Different selections give different links: the two identifiers and the
    number can be read back from the link. *)
Theorem build_link_inj (judet_id comuna_id nr judet_id' comuna_id' nr' : Z) :
  build_link judet_id comuna_id nr = build_link judet_id' comuna_id' nr' →
  judet_id = judet_id' ∧ comuna_id = comuna_id' ∧ nr = nr'.
Proof.
  unfold build_link. intros Heq%append_inv_head.
  assert (∀ c, avoids c decimal_chars → ∀ z : Z, avoids c (pretty z)) as Hav
    by (intros c Hc z; by apply avoids_pretty_Z).
  assert (avoids (Ascii.ascii_of_nat 46) decimal_chars) as Hdot
    by (simpl; repeat split; discriminate).
  assert (avoids (Ascii.ascii_of_nat 37) decimal_chars) as Hpc
    by (simpl; repeat split; discriminate).
  apply (append_inv_avoids (Ascii.ascii_of_nat 46) _ _ _ _ (Hav _ Hdot _) (Hav _ Hdot _)) in Heq
    as [Hj%(inj pretty) Heq].
  apply (append_inv_avoids (Ascii.ascii_of_nat 46) _ _ _ _ (Hav _ Hdot _) (Hav _ Hdot _)) in Heq
    as [Hc%(inj pretty) Heq].
  apply (append_inv_avoids (Ascii.ascii_of_nat 37) _ _ _ _ (Hav _ Hpc _) (Hav _ Hpc _)) in Heq
    as [Hn%(inj pretty) _].
  done.
Qed.
End request_link_facts.

Lemma request_link_selected_witness :
  ∃ judet_id comuna_id,
    request_link sample_data "Arges" "Ungheni" 12476
      = Ok (judet_id, comuna_id, build_link judet_id comuna_id 12476)
    ∧ (∃ l, l ∈ sample_data ∧ loc_Judet l = "Arges" ∧ loc_Judet_ID l = judet_id)
    ∧ (∃ l, l ∈ sample_data ∧ loc_Judet l = "Arges"
            ∧ loc_Comuna l = "Ungheni" ∧ loc_Comuna_ID l = comuna_id).
Proof.
  refine (request_link_selected sample_data "Arges" "Ungheni" 12476 _ _).
  - by apply (bool_decide_unpack _).
  - by apply (bool_decide_unpack _).
Defined.

Lemma request_link_unknown_witness :
  request_link [] "Arges" "Ungheni" 12476 = Raise IndexError.
Proof.
  refine (request_link_unknown [] "Arges" "Ungheni" 12476 _).
  by intros ?%elem_of_nil.
Defined.

Lemma build_link_inj_witness : (38 : Z) = 38 ∧ (19560 : Z) = 19560 ∧ (12476 : Z) = 12476.
Proof. exact (build_link_inj 38 19560 12476 38 19560 12476 eq_refl). Defined.

(** ** Requests that fail, and what the run makes of them *)

Section run_facts.
Context {num : Type} `{Countable num} `{!PyFloat num} `{!Projection num}
  `{!Network num}.
Implicit Types (row : lookup) (rows : list lookup) (seen : gset (num * num)).

(** A request that raises (no connection, say) is not caught: the loop ends
    at that row with the exception of [requests.get], after the rows before
    it. *)
Theorem process_rows_request_raises row url e rows1 rows2 seen :
  extract_url_from_html (Link row) = Some url →
  requests_get url = Raise e →
  process_rows (rows1 ++ row :: rows2) seen
    = (process_rows rows1 seen ≫= λ _, Raise e).
Proof.
  intros Hurl Hget. rewrite process_rows_app. cbn [process_rows].
  destruct (process_rows rows1 seen) as [[o1 s1]|]; [|done].
  cbn [mbind result_bind]. unfold process_row, fetch_json.
  by rewrite Hurl, Hget.
Qed.

(** A body that decodes to a falsy value (null, an empty object or list, 0,
    an empty text, false) counts as no data: with status 200 the loop appends
    the all-None record and leaves the set of seen vertices as it was. *)
Theorem process_row_falsy_body row url resp (j : json num) seen :
  extract_url_from_html (Link row) = Some url →
  requests_get url = Ok resp →
  status_code resp = 200 → response_json resp = Ok j → truthy j = false →
  process_row row seen = Ok (no_data, seen).
Proof.
  intros Hurl Hget Hstatus Hbody Hj. unfold process_row. rewrite Hurl.
  rewrite (fetch_json_status _ _ Hget). case_decide; [|done].
  bind_ok Hbody. by rewrite Hj.
Qed.

(** A run whose first record is answered with a status other than 200: when
    the loop gets through the other records, the projection raises
    ValueError, so the run gives no table at all, whatever the other requests
    returned. *)
Theorem processing_data_first_fails (r : lookup) (rs : list lookup) resp :
  Link r ≠ "" → unquoted (Link r) →
  requests_get (Link r) = Ok resp → status_code resp ≠ 200 →
  is_Ok (process_rows (df_of_recorduri rs) ∅) →
  processing_data (r :: rs) = Raise ValueError.
Proof.
  intros Hne Hq Hget Hstatus [[outs seen'] Hrest].
  unfold processing_data, df_of_recorduri. rewrite fmap_cons.
  cbn [process_rows]. unfold process_row at 1. cbn [Link].
  rewrite (extract_url_from_html_anchor _ Hne Hq).
  rewrite (fetch_json_status _ _ Hget). case_decide; [done|].
  cbn [mbind result_bind truthy].
  unfold df_of_recorduri in Hrest. bind_ok Hrest.
  by apply create_output_dataframe_first_missing; left.
Qed.
End run_facts.

Section run_sample.
Import Sample.

Lemma process_rows_request_raises_witness :
  process_rows [row_square; row_of 7 "http://svc/unreachable"; row_triangle] ∅
  = Raise ConnectionError.
Proof.
  exact (process_rows_request_raises (row_of 7 "http://svc/unreachable")
           "http://svc/unreachable" ConnectionError [row_square] [row_triangle] ∅
           eq_refl eq_refl).
Defined.

Lemma process_row_falsy_body_witness :
  process_row (Network0:=empty_answers) row_square ∅ = Ok (no_data, ∅).
Proof.
  exact (process_row_falsy_body (Network0:=empty_answers) row_square
           "http://svc/square" (Response 200 (Ok (JObj []))) (JObj []) ∅
           eq_refl eq_refl eq_refl eq_refl eq_refl).
Defined.

Lemma processing_data_first_fails_witness :
  processing_data [record_of 3 "http://svc/missing"; record_of 1 "http://svc/square"]
  = Raise ValueError.
Proof.
  refine (processing_data_first_fails (record_of 3 "http://svc/missing")
            [record_of 1 "http://svc/square"] (Response 404 (Raise JSONDecodeError))
            ltac:(discriminate) _ eq_refl ltac:(discriminate) _).
  - simpl. repeat split; discriminate.
  - eexists. reflexivity.
Defined.
End run_sample.

Lemma on_add_filled_witness :
  let s' := on_add "Arges" "Ungheni" 38 19560 12476 None in
  {| Judet := "Arges"; Judet_ID := 38; Comuna := "Ungheni"; Comuna_ID := 19560;
     Numar_Carte_Funciara := 12476; Link := build_link 38 19560 12476 |} ∈ records s'
  ∧ records None `prefix_of` records s'
  ∧ (length (records s') ≤ S (length (records None)))%nat.
Proof.
  exact (on_add_filled "Arges" "Ungheni" 38 19560 12476 None
           ltac:(discriminate) ltac:(discriminate) ltac:(discriminate)).
Defined.

Lemma on_add_unfilled_witness :
  on_add "Arges" "Ungheni" 38 19560 0 (Some dummy_records) = Some dummy_records.
Proof.
  exact (on_add_unfilled "Arges" "Ungheni" 38 19560 0 (Some dummy_records)
           (or_intror (or_intror eq_refl))).
Defined.
